(** * gcloud-node: the Datastore request mixin and the Compute firewall wrapper

    A shallow embedding of [lib/datastore/request.js] (the [DatastoreRequest]
    mixin) and of [lib/compute/firewall.js], and the properties their
    specification states about them.

    Conventions of the embedding.
    - A JavaScript exception is a value of [JsError] on the left of a sum.
    - A request handed to the host's [this.request] is recorded as a
      [Dispatch]; the reply of the transport is an input of the handler that
      was registered with the request.
    - A caller-supplied callback is an opaque token; invoking it is recorded
      with the arguments it receives.
    - [Key] objects live in a store indexed by references, because [save]
      writes generated ids back into the caller's own objects. *)

From Stdlib Require Import ZArith.
From stdpp Require Import base option list gmap strings functions.

Set Warnings "-register-all".

(** ** JavaScript preliminaries *)

Inductive JsError :=
  | Error (message : string)
  | TypeError (message : string).

(** Truthiness of an optional string ([undefined] and [''] are falsy). *)
Definition truthy (v : option string) : bool :=
  match v with
  | Some s => negb (String.eqb s "")
  | None => false
  end.

(** [is.defined(v)]: anything but [undefined]. *)
Definition is_defined {A} (v : option A) : bool :=
  match v with
  | Some _ => true
  | None => false
  end.

(** [a || b] on optional values whose present inhabitants are all truthy
    (objects and arrays). *)
Definition or_else {A} (a : option A) (b : A) : A :=
  match a with
  | Some x => x
  | None => b
  end.

(** An argument that is either one object or an array of them, and
    [arrify], which wraps the former into a one-element array. *)
Inductive OneOrMany (A : Type) :=
  | One (x : A)
  | Many (xs : list A).
Arguments One {A} _.
Arguments Many {A} _.

Definition arrify {A} (v : OneOrMany A) : list A :=
  match v with
  | One x => [x]
  | Many xs => xs
  end.

(** [arrify] of a field that may be missing: [undefined] gives [[]]. *)
Definition arrify_field {A} (v : option (list A)) : list A :=
  match v with
  | Some xs => xs
  | None => []
  end.

(** The names every plain object inherits from [Object.prototype]; reading
    one of them through an object literal yields a function, or the prototype
    itself for [__proto__], all of which are truthy. *)
Definition Object_prototype_names : list string :=
  ["constructor"; "toString"; "toLocaleString"; "valueOf"; "hasOwnProperty";
   "isPrototypeOf"; "propertyIsEnumerable"; "__proto__"; "__defineGetter__";
   "__defineSetter__"; "__lookupGetter__"; "__lookupSetter__"].

(** Truthiness of [obj[name]] for an object literal whose own properties,
    listed in [own], all hold [true]. *)
Definition literal_lookup_truthy (own : list string) (name : string) : bool :=
  existsb (String.eqb name) own
  || existsb (String.eqb name) Object_prototype_names.

(** The own properties of an object literal after [obj[name] = v].  The name
    [__proto__] is the accessor of [Object.prototype]: assigning to it
    replaces the prototype of [obj], or does nothing when [v] is not an
    object, and stores no own property.  Every other name becomes, or stays,
    an own property holding [v]. *)
Definition assign_own {V} (name : string) (v : V) (obj : gmap string V)
  : gmap string V :=
  if String.eqb name "__proto__" then obj else <[name := v]> obj.

(** ** Keys

    Modelled from the spec: the [Key] class of [lib/datastore/entity.js] is
    not among the sources.  A key has an optional namespace and an ordered
    path of segments, each a kind with an id or a name; the last segment is
    the key's own, and the key is complete when that segment carries an id or
    a name.  The last segment is kept apart from the ones above it, as a
    [kind] with the fields [id] and [name], because the request layer reads
    and writes [key.id]: the path of a key is [ancestors] followed by the
    kind and whichever of [id] and [name] is set, so an id written to the key
    shows up in its path ([ 'Company', 5669468231434240 ] in the example of
    [save]). *)
Module Key.
Record t := mk {
  namespace : option string;
  ancestors : list (string * (Z + string));
  kind : string;
  id : option Z;
  name : option string
}.

(** [key.id = v] *)
Definition set_id (v : option Z) (k : t) : t :=
  {| namespace := namespace k; ancestors := ancestors k; kind := kind k;
     id := v; name := name k |}.
End Key.

(** References to [Key] objects and the store that holds them. *)
Abbreviation KeyRef := nat (only parsing).
Abbreviation KeyStore := (nat → Key.t) (only parsing).

(** ** Queries

    Modelled from the spec: [lib/datastore/query.js] is not among the sources.
    A [Query] carries a namespace, kinds, a projection, a limit, an offset and
    start and end cursors; the request layer reads [namespace], [limitVal] and
    [offsetVal] directly, with [-1] standing for an unset limit or offset.  The
    chainable setters [start], [offset] and [limit] store their argument in
    the corresponding field. *)
Module Query.
Record t := mk {
  namespace : option string;
  kinds : list string;
  selectVal : list string;
  limitVal : Z;
  offsetVal : Z;
  startVal : option string;
  endVal : option string
}.

Definition start (c : string) (q : t) : t :=
  {| namespace := namespace q; kinds := kinds q; selectVal := selectVal q;
     limitVal := limitVal q; offsetVal := offsetVal q;
     startVal := Some c; endVal := endVal q |}.

Definition offset (n : Z) (q : t) : t :=
  {| namespace := namespace q; kinds := kinds q; selectVal := selectVal q;
     limitVal := limitVal q; offsetVal := n;
     startVal := startVal q; endVal := endVal q |}.

Definition limit (n : Z) (q : t) : t :=
  {| namespace := namespace q; kinds := kinds q; selectVal := selectVal q;
     limitVal := n; offsetVal := offsetVal q;
     startVal := startVal q; endVal := endVal q |}.

(** [extend(true, new Query(), query)]: a deep copy of [query] into a fresh
    object.  Records are values, so the copy is the record itself; what
    matters is that later writes go to the copy and never to [query]. *)
Definition clone (q : t) : t := q.
End Query.

(** ** Wire values

    The part of an encoded property value that [save] inspects:
    [arrayValue.values] and [excludeFromIndexes]; [other] stands for the
    remaining fields written by the encoder. *)
Inductive ValueProto (S : Type) :=
  | Value (other : S)
          (arrayValue : option (option (list (ValueProto S))))
          (excludeFromIndexes : option bool).
Arguments Value {S} _ _ _.

Section ValueProto.
Context {S : Type}.

Definition other (v : ValueProto S) : S :=
  match v with Value o _ _ => o end.

(** [v.arrayValue]; the inner option is [v.arrayValue.values]. *)
Definition arrayValue (v : ValueProto S)
  : option (option (list (ValueProto S))) :=
  match v with Value _ a _ => a end.

Definition excludeFromIndexes (v : ValueProto S) : option bool :=
  match v with Value _ _ e => e end.

(** [v.arrayValue && v.arrayValue.values] when that is an array. *)
Definition arrayValue_values (v : ValueProto S)
  : option (list (ValueProto S)) :=
  match arrayValue v with
  | Some (Some vs) => Some vs
  | _ => None
  end.

(** [propAssign('excludeFromIndexes', b)]: the iterator of the [prop-assign]
    package; it assigns the property on the object it is given and returns
    that same object. *)
Definition propAssign_excludeFromIndexes (b : bool) (v : ValueProto S)
  : ValueProto S :=
  Value (other v) (arrayValue v) (Some b).

(** The state of [value] after [values.map(propAssign(...))] ran over the
    array held in [value.arrayValue.values]: every element was assigned in
    place. *)
Definition assign_array_elements (b : bool) (v : ValueProto S)
  (vs : list (ValueProto S)) : ValueProto S :=
  Value (other v)
        (Some (Some (propAssign_excludeFromIndexes b <$> vs)))
        (excludeFromIndexes v).
End ValueProto.

(** ** The entity codec

    [lib/datastore/entity.js] is not among the sources; the request layer
    uses the functions below as they stand.  [limit_value] reads
    [queryProto.limit.value]; it is [None] for a wire query without a [limit]
    wrapper, on which that read throws. *)
Class EntityModule := {
  KeyProto : Type;
  EntityResult : Type;
  Entity : Type;
  JsValue : Type;
  Scalar : Type;
  DataObject : Type;
  QueryProto : Type;
  isKeyComplete : Key.t → bool;
  keyToKeyProto : Key.t → KeyProto;
  keyFromKeyProto : KeyProto → Key.t;
  formatArray : list EntityResult → list Entity;
  encodeValue : JsValue → ValueProto Scalar;
  entityToEntityProto : DataObject → gmap string (ValueProto Scalar);
  queryToQueryProto : Query.t → QueryProto;
  limit_value : QueryProto → option Z
}.

(** Cursors travel as Node [Buffer]s; [toString_base64] is
    [buffer.toString('base64')]. *)
Class NodeBuffer := {
  Buffer : Type;
  toString_base64 : Buffer → string
}.

(** ** The request mixin *)

Module DatastoreRequest.
Section Mixin.
Context `{EntityModule} `{NodeBuffer}.
(** Caller-supplied callbacks and the errors reported by the transport. *)
Context {Callback ApiError : Type}.

Record ProtoOpts := { service : string; method : string }.

(** The wire form of an entity: [{ properties: ..., key: ... }]. *)
Record EntityProto := {
  properties : gmap string (ValueProto Scalar);
  key : option KeyProto
}.

(** The object built by [mutation = {}; mutation[m] = entityProto], and
    [{ delete: keyProto }].  For every [m] but [__proto__] the former is
    [{ <m>: entityProto }]; under [__proto__] the assignment makes
    [entityProto] the prototype of the object rather than an own property. *)
Inductive Mutation :=
  | MutationEntity (m : string) (entityProto : EntityProto)
  | MutationDelete (k : KeyProto).

(** [readOptions: { transaction: ... }]. *)
Record ReadOptions := { readOptions_transaction : option string }.

(** The request body, a JavaScript object whose fields are set piecemeal. *)
Record ReqOpts := {
  keys : option (list KeyProto);
  mutations : option (list Mutation);
  readOptions : option ReadOptions;
  query : option QueryProto;
  partitionId : option string;
  projectId : option string;
  mode : option string;
  transaction : option string
}.

Definition set_projectId (v : option string) (r : ReqOpts) : ReqOpts :=
  {| keys := keys r; mutations := mutations r; readOptions := readOptions r;
     query := query r; partitionId := partitionId r; projectId := v;
     mode := mode r; transaction := transaction r |}.

Definition set_mode (v : string) (r : ReqOpts) : ReqOpts :=
  {| keys := keys r; mutations := mutations r; readOptions := readOptions r;
     query := query r; partitionId := partitionId r;
     projectId := projectId r; mode := Some v;
     transaction := transaction r |}.

Definition set_transaction (v : option string) (r : ReqOpts) : ReqOpts :=
  {| keys := keys r; mutations := mutations r; readOptions := readOptions r;
     query := query r; partitionId := partitionId r;
     projectId := projectId r; mode := mode r; transaction := v |}.

Definition set_readOptions (v : ReadOptions) (r : ReqOpts) : ReqOpts :=
  {| keys := keys r; mutations := mutations r; readOptions := Some v;
     query := query r; partitionId := partitionId r;
     projectId := projectId r; mode := mode r;
     transaction := transaction r |}.

Definition set_query (v : QueryProto) (r : ReqOpts) : ReqOpts :=
  {| keys := keys r; mutations := mutations r; readOptions := readOptions r;
     query := Some v; partitionId := partitionId r;
     projectId := projectId r; mode := mode r;
     transaction := transaction r |}.

Definition set_partitionId (v : string) (r : ReqOpts) : ReqOpts :=
  {| keys := keys r; mutations := mutations r; readOptions := readOptions r;
     query := query r; partitionId := Some v;
     projectId := projectId r; mode := mode r;
     transaction := transaction r |}.

(** An entity object as [save] receives it.  [entity_key] refers to the
    caller's [Key] object; [entity_method] is the optional [method] string;
    [entity_data] is either the explicit property list or a plain object. *)
Record PropertyEntry := {
  entry_name : string;
  entry_value : JsValue;
  (** [Some b] when [excludeFromIndexes] is the boolean [b]; [None] when it
      is missing or not a boolean. *)
  entry_excludeFromIndexes : option bool
}.

Inductive EntityData :=
  | DataArray (entries : list PropertyEntry)
  | DataPlain (obj : DataObject).

Record EntityObject := {
  entity_key : KeyRef;
  entity_method : option string;
  entity_data : EntityData
}.

(** The functions registered as reply handlers. *)
Inductive Handler :=
  (** the anonymous handler of [allocateIds] *)
  | AllocateIdsHandler (callback : Callback)
  (** [callback || util.noop] of [delete] *)
  | DeleteHandler (callback : option Callback)
  (** [onCommit] of [save], closed over [entities], [insertIndexes] and
      [callback] *)
  | OnCommit (entities : list EntityObject) (insertIndexes : gmap nat bool)
             (callback : option Callback)
  (** [onResponse] of [runQuery] *)
  | OnResponse (q : Query.t) (callback : Callback).

(** A call of the host's [this.request(protoOpts, reqOpts, callback)]. *)
Record Dispatch := {
  dispatch_protoOpts : ProtoOpts;
  dispatch_reqOpts : ReqOpts;
  dispatch_handler : Handler
}.

(** The object the mixin is applied to: a Datastore client or a
    transaction. *)
Record Context := {
  this_id : option string;
  this_projectId : option string;
  requests_ : list ReqOpts;
  requestCallbacks_ : list Handler
}.

Definition push_request (r : ReqOpts) (this : Context) : Context :=
  {| this_id := this_id this; this_projectId := this_projectId this;
     requests_ := requests_ this ++ [r];
     requestCallbacks_ := requestCallbacks_ this |}.

Definition push_requestCallback (h : Handler) (this : Context) : Context :=
  {| this_id := this_id this; this_projectId := this_projectId this;
     requests_ := requests_ this;
     requestCallbacks_ := requestCallbacks_ this ++ [h] |}.

(** *** [request_]

    Every call in this module passes a handler, so the two-argument form is
    not entered.  The result is the body as it reaches [this.request]; the
    body object itself is updated, which matters to [runQuery], where one
    body serves several requests. *)
Definition request_reqOpts (this : Context) (protoOpts : ProtoOpts)
  (reqOpts : ReqOpts) : ReqOpts :=
  let isTransaction := is_defined (this_id this) in
  let m := method protoOpts in
  let reqOpts := set_projectId (this_projectId this) reqOpts in
  let reqOpts :=
    if String.eqb m "commit" then
      if isTransaction
      then set_transaction (this_id this) (set_mode "TRANSACTIONAL" reqOpts)
      else set_mode "NON_TRANSACTIONAL" reqOpts
    else reqOpts in
  let reqOpts :=
    if String.eqb m "rollback"
    then set_transaction (this_id this) reqOpts
    else reqOpts in
  if isTransaction && (String.eqb m "lookup" || String.eqb m "runQuery")
  then set_readOptions
         {| readOptions_transaction := this_id this |} reqOpts
  else reqOpts.

Definition request_ (this : Context) (protoOpts : ProtoOpts)
  (reqOpts : ReqOpts) (callback : Handler) : Dispatch :=
  {| dispatch_protoOpts := protoOpts;
     dispatch_reqOpts := request_reqOpts this protoOpts reqOpts;
     dispatch_handler := callback |}.

(** *** [allocateIds] *)

(** [for (var i = 0; i < n; i++) incompleteKeys.push(keyProto)], with the
    number of rounds left as the recursion argument; for an integer [n] the
    loop makes [Z.to_nat n] rounds, none when [n] is negative. *)
Fixpoint push_keys (rounds : nat) (keyProto : KeyProto)
  (incompleteKeys : list KeyProto) : list KeyProto :=
  match rounds with
  | O => incompleteKeys
  | S rounds' => push_keys rounds' keyProto (incompleteKeys ++ [keyProto])
  end.

Definition allocateIds (this : Context) (incompleteKey : Key.t) (n : Z)
  (callback : Callback) : JsError + Dispatch :=
  if isKeyComplete incompleteKey then
    inl (Error "An incomplete key should be provided.")
  else
    let incompleteKeys :=
      push_keys (Z.to_nat n) (keyToKeyProto incompleteKey) [] in
    let protoOpts := {| service := "Datastore"; method := "allocateIds" |} in
    let reqOpts :=
      {| keys := Some incompleteKeys; mutations := None;
         readOptions := None; query := None; partitionId := None;
         projectId := None; mode := None; transaction := None |} in
    inr (request_ this protoOpts reqOpts (AllocateIdsHandler callback)).

(** The reply of [allocateIds]: [{ keys: [...] }]. *)
Record AllocateIdsResponse := { response_keys : option (list KeyProto) }.

(** The arguments [(err, keys, apiResponse)] of the callback. *)
Record AllocateIdsArgs := {
  allocate_err : option ApiError;
  allocate_keys : option (list Key.t);
  allocate_apiResponse : option AllocateIdsResponse
}.

Definition allocateIds_handler (err : option ApiError)
  (resp : option AllocateIdsResponse) : JsError + AllocateIdsArgs :=
  match err with
  | Some e =>
      inr {| allocate_err := Some e; allocate_keys := None;
             allocate_apiResponse := resp |}
  | None =>
      match resp with
      | None => inl (TypeError "Cannot read property 'keys' of undefined")
      | Some r =>
          let keys :=
            keyFromKeyProto <$> or_else (response_keys r) [] in
          inr {| allocate_err := None; allocate_keys := Some keys;
                 allocate_apiResponse := Some r |}
      end
  end.

(** *** [delete] *)

(** What a call leaves behind: the updated context and the requests handed
    to the host's [this.request]. *)
Record Effects := {
  effects_this : Context;
  effects_dispatched : list Dispatch
}.

Definition commit_protoOpts : ProtoOpts :=
  {| service := "Datastore"; method := "commit" |}.

Definition mutations_reqOpts (ms : list Mutation) : ReqOpts :=
  {| keys := None; mutations := Some ms; readOptions := None;
     query := None; partitionId := None; projectId := None; mode := None;
     transaction := None |}.

Definition delete (this : Context) (keys : OneOrMany Key.t)
  (callback : option Callback) : Effects :=
  let callback := DeleteHandler callback in
  let protoOpts := commit_protoOpts in
  let reqOpts :=
    mutations_reqOpts
      ((λ key, MutationDelete (keyToKeyProto key)) <$> arrify keys) in
  if truthy (this_id this) then
    {| effects_this := push_request reqOpts this;
       effects_dispatched := [] |}
  else
    {| effects_this := this;
       effects_dispatched := [request_ this protoOpts reqOpts callback] |}.

(** *** [save] *)

(** The object literal [methods] of [save]. *)
Definition methods : list string := ["insert"; "update"; "upsert"].

(** The choice of the mutation method for one entity object: [method]
    starts as ['upsert'] and is replaced by a truthy [entityObject.method]
    for which [methods[entityObject.method]] is truthy; a truthy one for
    which it is not makes [save] throw. *)
Definition choose_method (entity_method : option string)
  : JsError + string :=
  match entity_method with
  | Some m =>
      if truthy (Some m) then
        if literal_lookup_truthy methods m then inr m
        else inl (Error ("Method " +:+ m +:+ " not recognized."))
      else inr "upsert"
  | None => inr "upsert"
  end.

(** The body of the [reduce] over an explicit property list. *)
Definition encode_entry (data : PropertyEntry) : ValueProto Scalar :=
  let value := encodeValue (entry_value data) in
  match entry_excludeFromIndexes data with
  | Some excluded =>
      match arrayValue_values value with
      | Some values => assign_array_elements excluded value values
      | None => Value (other value) (arrayValue value) (Some excluded)
      end
  | None => value
  end.

(** The [reduce] itself, from [{}]: [acc[data.name] = value] for each entry
    in turn.  The result lists the own properties of the object built. *)
Definition reduce_entries (entries : list PropertyEntry)
  : gmap string (ValueProto Scalar) :=
  foldl (λ acc data, assign_own (entry_name data) (encode_entry data) acc)
        ∅ entries.

(** [insertIndexes[index]] *)
Definition marked (insertIndexes : gmap nat bool) (index : nat) : bool :=
  match insertIndexes !! index with
  | Some b => b
  | None => false
  end.

(** One round of [entities.forEach]; [store] gives the present state of
    the caller's [Key] objects.  The round works on a deep copy of the entity
    object, which it only reads, so the fields are taken from the object
    itself. *)
Definition forEach_body (store : KeyStore)
  (acc : gmap nat bool * list Mutation) (index : nat)
  (entityObject : EntityObject)
  : JsError + (gmap nat bool * list Mutation) :=
  let '(insertIndexes, mutations) := acc in
  match choose_method (entity_method entityObject) with
  | inl e => inl e
  | inr m =>
      let k := store (entity_key entityObject) in
      let insertIndexes :=
        if isKeyComplete k then insertIndexes
        else <[index := true]> insertIndexes in
      let props :=
        match entity_data entityObject with
        | DataArray entries => reduce_entries entries
        | DataPlain obj => entityToEntityProto obj
        end in
      let entityProto :=
        {| properties := props; key := Some (keyToKeyProto k) |} in
      inr (insertIndexes, mutations ++ [MutationEntity m entityProto])
  end.

Fixpoint forEach_entities (store : KeyStore) (index : nat)
  (entities : list EntityObject) (acc : gmap nat bool * list Mutation)
  : JsError + (gmap nat bool * list Mutation) :=
  match entities with
  | [] => inr acc
  | entityObject :: rest =>
      match forEach_body store acc index entityObject with
      | inl e => inl e
      | inr acc' => forEach_entities store (S index) rest acc'
      end
  end.

Definition save (store : KeyStore) (this : Context)
  (entities : OneOrMany EntityObject) (callback : option Callback)
  : JsError + Effects :=
  let entities := arrify entities in
  match forEach_entities store 0 entities (∅, []) with
  | inl e => inl e
  | inr (insertIndexes, mutations) =>
      let protoOpts := commit_protoOpts in
      let reqOpts := mutations_reqOpts mutations in
      let onCommit := OnCommit entities insertIndexes callback in
      if truthy (this_id this) then
        inr {| effects_this :=
                 push_requestCallback onCommit (push_request reqOpts this);
               effects_dispatched := [] |}
      else
        inr {| effects_this := this;
               effects_dispatched :=
                 [request_ this protoOpts reqOpts onCommit] |}
  end.

(** The reply to a commit. *)
Record MutationResult := { result_key : option KeyProto }.
Record CommitResponse := {
  mutationResults : option (list MutationResult)
}.

(** The arguments [(err, apiResponse)] handed to the callback of [save]. *)
Record CommitArgs := {
  commit_callback : Callback;
  commit_err : option ApiError;
  commit_apiResponse : option CommitResponse
}.

(** [arrify(resp.mutationResults).forEach(...)] inside [onCommit]: the
    store after the loop, and the error that stopped it, if any. *)
Fixpoint forEach_results (entities : list EntityObject)
  (insertIndexes : gmap nat bool) (index : nat)
  (results : list MutationResult) (store : KeyStore)
  : KeyStore * option JsError :=
  match results with
  | [] => (store, None)
  | result :: rest =>
      match result_key result with
      | None => forEach_results entities insertIndexes (S index) rest store
      | Some keyProto =>
          if marked insertIndexes index then
            match entities !! index with
            | Some entityObject =>
                let id := Key.id (keyFromKeyProto keyProto) in
                forEach_results entities insertIndexes (S index) rest
                  (alter (Key.set_id id) (entity_key entityObject) store)
            | None =>
                (store,
                 Some (TypeError "Cannot read property 'key' of undefined"))
            end
          else forEach_results entities insertIndexes (S index) rest store
      end
  end.

Definition call_commit_callback (callback : option Callback)
  (err : option ApiError) (resp : option CommitResponse)
  : JsError + CommitArgs :=
  match callback with
  | Some cb =>
      inr {| commit_callback := cb; commit_err := err;
             commit_apiResponse := resp |}
  | None => inl (TypeError "callback is not a function")
  end.

Definition onCommit (entities : list EntityObject)
  (insertIndexes : gmap nat bool) (callback : option Callback)
  (store : KeyStore) (err : option ApiError)
  (resp : option CommitResponse) : KeyStore * (JsError + CommitArgs) :=
  match err, resp with
  | None, Some r =>
      match forEach_results entities insertIndexes 0
              (arrify_field (mutationResults r)) store with
      | (store', Some e) => (store', inl e)
      | (store', None) =>
          (store', call_commit_callback callback None (Some r))
      end
  | _, _ => (store, call_commit_callback callback err resp)
  end.

(** *** [runQuery]

    The method as [request.js] defines it, before [streamRouter.extend]
    wraps it. *)

Record Batch := {
  entityResults : option (list EntityResult);
  moreResults : string;
  endCursor : Buffer;
  skippedResults : Z
}.

Record RunQueryResponse := { batch : Batch }.

(** The arguments [(err, entities, nextQuery, apiResponse)] handed to the
    callback. *)
Record RunQueryArgs := {
  run_callback : Callback;
  run_err : option ApiError;
  run_entities : option (list Entity);
  run_nextQuery : option Query.t;
  run_apiResponse : option RunQueryResponse
}.

(** The variables of [runQuery] that [onResponse] assigns. *)
Record RunState := {
  entities : list Entity;
  reqOpts : ReqOpts
}.

Inductive Step :=
  (** [self.request_(protoOpts, reqOpts, onResponse); return] *)
  | Reissue (st : RunState) (d : Dispatch)
  (** [callback(...)] *)
  | Return (args : RunQueryArgs)
  | Throw (e : JsError).

Definition runQuery_protoOpts : ProtoOpts :=
  {| service := "Datastore"; method := "runQuery" |}.

(** Lines 464-468: the continuation query built from [query] and the batch
    at hand. *)
Definition next_query (q : Query.t) (b : Batch) : Query.t :=
  let endCursor := endCursor b in
  let offset :=
    if (Query.offsetVal q =? -1)%Z then 0%Z else Query.offsetVal q in
  let nextOffset := (offset - skippedResults b)%Z in
  let nextQuery := Query.clone q in
  Query.offset nextOffset
    (Query.start (toString_base64 endCursor) nextQuery).

Definition onResponse (this : Context) (q : Query.t) (originalLimitVal : Z)
  (callback : Callback) (st : RunState) (err : option ApiError)
  (resp : option RunQueryResponse) : Step :=
  match err with
  | Some e =>
      Return {| run_callback := callback; run_err := Some e;
                run_entities := None; run_nextQuery := None;
                run_apiResponse := resp |}
  | None =>
      match resp with
      | None => Throw (TypeError "Cannot read property 'batch' of undefined")
      | Some r =>
          let b := batch r in
          let entities :=
            match entityResults b with
            | Some results => entities st ++ formatArray results
            | None => entities st
            end in
          let notFinished := String.eqb (moreResults b) "NOT_FINISHED" in
          let moreResults :=
            String.eqb (moreResults b) "MORE_RESULTS_AFTER_LIMIT" in
          let nextQuery :=
            if notFinished || moreResults then Some (next_query q b)
            else None in
          if notFinished then
            match query (reqOpts st), nextQuery with
            | Some queryProto, Some nextQuery =>
                match limit_value queryProto with
                | None =>
                    Throw (TypeError
                             "Cannot read property 'value' of undefined")
                | Some limit =>
                    let limited :=
                      if (limit >? -1)%Z then
                        match entityResults b with
                        | Some results =>
                            inr (Query.limit
                                   (limit - Z.of_nat (length results))%Z
                                   nextQuery)
                        | None =>
                            inl (TypeError
                                   "Cannot read property 'length' of undefined")
                        end
                      else inr nextQuery in
                    match limited with
                    | inl e => Throw e
                    | inr nextQuery =>
                        let reqOpts :=
                          set_query (queryToQueryProto nextQuery)
                                    (reqOpts st) in
                        let d :=
                          request_ this runQuery_protoOpts reqOpts
                                   (OnResponse q callback) in
                        Reissue {| entities := entities;
                                   reqOpts := dispatch_reqOpts d |} d
                    end
                end
            | None, _ =>
                Throw (TypeError "Cannot read property 'limit' of undefined")
            | _, None =>
                Throw (TypeError "Cannot read property 'limit' of null")
            end
          else
            let nextQuery :=
              match nextQuery with
              | Some nextQuery =>
                  if (originalLimitVal >? -1)%Z
                  then Some (Query.limit originalLimitVal nextQuery)
                  else Some nextQuery
              | None => None
              end in
            Return {| run_callback := callback; run_err := None;
                      run_entities := Some entities;
                      run_nextQuery := nextQuery;
                      run_apiResponse := Some r |}
      end
  end.

(** What an observer of one [runQuery] call sees, in order. *)
Inductive Event :=
  | Requested (d : Dispatch)
  | Called (args : RunQueryArgs)
  | Threw (e : JsError).

(** The transport answers the outstanding request with the next reply of
    [replies]; [onResponse] runs on it and either asks again or ends. *)
Fixpoint onResponses (this : Context) (q : Query.t) (originalLimitVal : Z)
  (callback : Callback) (st : RunState)
  (replies : list (option ApiError * option RunQueryResponse))
  : list Event :=
  match replies with
  | [] => []
  | (err, resp) :: rest =>
      match onResponse this q originalLimitVal callback st err resp with
      | Reissue st' d =>
          Requested d
            :: onResponses this q originalLimitVal callback st' rest
      | Return args => [Called args]
      | Throw e => [Threw e]
      end
  end.

Definition runQuery_reqOpts (q : Query.t) : ReqOpts :=
  let reqOpts :=
    {| keys := None; mutations := None;
       readOptions := Some {| readOptions_transaction := None |};
       query := Some (queryToQueryProto q); partitionId := None;
       projectId := None; mode := None; transaction := None |} in
  match Query.namespace q with
  | Some ns => if truthy (Some ns) then set_partitionId ns reqOpts
               else reqOpts
  | None => reqOpts
  end.

Definition runQuery (this : Context) (q : Query.t) (callback : Callback)
  (replies : list (option ApiError * option RunQueryResponse))
  : list Event :=
  let reqOpts := runQuery_reqOpts q in
  let originalLimitVal := Query.limitVal q in
  let d := request_ this runQuery_protoOpts reqOpts (OnResponse q callback) in
  Requested d
    :: onResponses this q originalLimitVal callback
         {| entities := []; reqOpts := dispatch_reqOpts d |} replies.

(** The invocations of the callback among the events of a call. *)
Definition calls (events : list Event) : list RunQueryArgs :=
  omap (λ ev, match ev with Called args => Some args | _ => None end) events.

(** The exceptions among the events of a call. *)
Definition throws (events : list Event) : list JsError :=
  omap (λ ev, match ev with Threw e => Some e | _ => None end) events.

(** *** [get], up to the point where it returns

    With a callback, [get] calls itself without one and feeds the callback
    from the stream it gets back; without one it maps the keys to their wire
    form, throws on an empty array and hands a [lookup] request to
    [request_].  Both ways run the same code before returning: what is thrown
    or dispatched is modelled here; the stream and [onApiResponse], which
    feeds it, are not. *)
Definition lookup_protoOpts : ProtoOpts :=
  {| service := "Datastore"; method := "lookup" |}.

Definition get (this : Context) (keys : OneOrMany Key.t)
  : JsError + (ProtoOpts * ReqOpts) :=
  let keys := keyToKeyProto <$> arrify keys in
  if length keys =? 0 then
    inl (Error "At least one Key object is required.")
  else
    let protoOpts := lookup_protoOpts in
    let reqOpts :=
      {| keys := Some keys; mutations := None; readOptions := None;
         query := None; partitionId := None; projectId := None;
         mode := None; transaction := None |} in
    inr (protoOpts, request_reqOpts this protoOpts reqOpts).

(** *** [insert], [update], [upsert] *)

(** [propAssign('method', m)] on an entity object. *)
Definition propAssign_method (m : string) (entityObject : EntityObject)
  : EntityObject :=
  {| entity_key := entity_key entityObject; entity_method := Some m;
     entity_data := entity_data entityObject |}.

Definition insert (store : KeyStore) (this : Context)
  (entities : OneOrMany EntityObject) (callback : option Callback)
  : JsError + Effects :=
  let entities := propAssign_method "insert" <$> arrify entities in
  save store this (Many entities) callback.

Definition update (store : KeyStore) (this : Context)
  (entities : OneOrMany EntityObject) (callback : option Callback)
  : JsError + Effects :=
  let entities := propAssign_method "update" <$> arrify entities in
  save store this (Many entities) callback.

Definition upsert (store : KeyStore) (this : Context)
  (entities : OneOrMany EntityObject) (callback : option Callback)
  : JsError + Effects :=
  let entities := propAssign_method "upsert" <$> arrify entities in
  save store this (Many entities) callback.

End Mixin.
End DatastoreRequest.

(** ** The firewall wrapper *)

Module Firewall.
Section Wrapper.
Context {Callback ApiError Json : Type}.
(** A string as a JSON value. *)
Variable json_string : string → Json.

(** The reply of the Compute API to a firewall request: an operation
    resource, of which the wrapper reads [name]. *)
Record FirewallResponse := {
  response_name : string;
  response_fields : gmap string Json
}.

(** Modelled from the spec: [compute.operation] and the [Operation] class
    ([lib/compute/index.js], [lib/compute/operation.js]) are not among the
    sources.  An Operation is a handle with a name and a metadata blob,
    created from a response's [name] field; the metadata of a fresh handle
    is not set yet. *)
Record Operation := {
  operation_name : string;
  operation_metadata : option FirewallResponse
}.

Definition compute_operation (name : string) : Operation :=
  {| operation_name := name; operation_metadata := None |}.

(** [operation.metadata = resp] *)
Definition set_operation_metadata (resp : FirewallResponse)
  (operation : Operation) : Operation :=
  {| operation_name := operation_name operation;
     operation_metadata := Some resp |}.

Record t := {
  name : string;
  (** [this.metadata.network] *)
  metadata_network : Json
}.

(** The arguments [(err, operation, apiResponse)] handed to
    [callback || util.noop]; [None] as the receiver is [util.noop]. *)
Record Args := {
  args_callback : option Callback;
  args_err : option ApiError;
  args_operation : option Operation;
  args_apiResponse : option FirewallResponse
}.

(** The requests the wrapper issues. *)
Inductive FirewallRequest :=
  (** [ServiceObject.prototype.delete.call(this, handler)] *)
  | ServiceObject_delete
  (** [this.request({ method, uri, json }, handler)] *)
  | Request (method uri : string) (json : gmap string Json).

(** The handler [delete] passes to [ServiceObject.prototype.delete]. *)
Definition delete_onResponse (callback : option Callback)
  (err : option ApiError) (resp : option FirewallResponse)
  : JsError + Args :=
  match err with
  | Some e =>
      inr {| args_callback := callback; args_err := Some e;
             args_operation := None; args_apiResponse := resp |}
  | None =>
      match resp with
      | None => inl (TypeError "Cannot read property 'name' of undefined")
      | Some r =>
          let operation := compute_operation (response_name r) in
          let operation := set_operation_metadata r operation in
          inr {| args_callback := callback; args_err := None;
                 args_operation := Some operation;
                 args_apiResponse := Some r |}
      end
  end.

Definition delete (this : t) (callback : option Callback)
  : FirewallRequest
    * (option ApiError → option FirewallResponse → JsError + Args) :=
  (ServiceObject_delete, delete_onResponse callback).

(** The handler [setMetadata] passes to [this.request]. *)
Definition setMetadata_onResponse (callback : option Callback)
  (err : option ApiError) (resp : option FirewallResponse)
  : JsError + Args :=
  match err with
  | Some e =>
      inr {| args_callback := callback; args_err := Some e;
             args_operation := None; args_apiResponse := resp |}
  | None =>
      match resp with
      | None => inl (TypeError "Cannot read property 'name' of undefined")
      | Some r =>
          let operation := compute_operation (response_name r) in
          let operation := set_operation_metadata r operation in
          inr {| args_callback := callback; args_err := None;
                 args_operation := Some operation;
                 args_apiResponse := Some r |}
      end
  end.

Definition setMetadata (this : t) (metadata : option (gmap string Json))
  (callback : option Callback)
  : FirewallRequest
    * (option ApiError → option FirewallResponse → JsError + Args) :=
  let metadata := or_else metadata ∅ in
  let metadata := <["name" := json_string (name this)]> metadata in
  let metadata := <["network" := metadata_network this]> metadata in
  (Request "PATCH" "" metadata, setMetadata_onResponse callback).

(** The fields the constructor [Firewall(compute, name)] sets itself:
    [this.name] and [this.metadata.network]. *)
Definition new (firewall_name : string) : t :=
  {| name := firewall_name;
     metadata_network := json_string "global/networks/default" |}.

End Wrapper.
End Firewall.

(** ** Observations used by the statements below *)

Section Observations.
Context `{EntityModule} `{NodeBuffer} {Callback ApiError : Type}.

(** The mutation [save] builds for [entityObject] once [m] is chosen. *)
Definition entity_mutation (store : KeyStore) (m : string)
  (entityObject : DatastoreRequest.EntityObject)
  : DatastoreRequest.Mutation :=
  DatastoreRequest.MutationEntity m
    {| DatastoreRequest.properties :=
         match DatastoreRequest.entity_data entityObject with
         | DatastoreRequest.DataArray entries =>
             DatastoreRequest.reduce_entries entries
         | DatastoreRequest.DataPlain obj => entityToEntityProto obj
         end;
       DatastoreRequest.key :=
         Some (keyToKeyProto
                 (store (DatastoreRequest.entity_key entityObject))) |}.

(** The commit body a call produced: the one it dispatched, or else the one
    it queued last. *)
Definition produced_reqOpts
  (eff : DatastoreRequest.Effects (Callback := Callback))
  : option DatastoreRequest.ReqOpts :=
  match DatastoreRequest.effects_dispatched eff with
  | d :: _ => Some (DatastoreRequest.dispatch_reqOpts d)
  | [] =>
      list.last
        (DatastoreRequest.requests_ (DatastoreRequest.effects_this eff))
  end.

Definition produced_mutations
  (eff : DatastoreRequest.Effects (Callback := Callback))
  : list DatastoreRequest.Mutation :=
  match produced_reqOpts eff with
  | Some r => arrify_field (DatastoreRequest.mutations r)
  | None => []
  end.

(** The entities a batch contributes to the result of [runQuery]: its
    decoded results, or none when [entityResults] is missing. *)
Definition decoded_entities (r : DatastoreRequest.RunQueryResponse)
  : list Entity :=
  match DatastoreRequest.entityResults (DatastoreRequest.batch r) with
  | Some results => formatArray results
  | None => []
  end.

(** [query.offsetVal === -1 ? 0 : query.offsetVal] *)
Definition requested_offset (q : Query.t) : Z :=
  if (Query.offsetVal q =? -1)%Z then 0%Z else Query.offsetVal q.

(** The continuation query [onResponse] sends on a NOT_FINISHED batch when
    the outstanding request had the limit [limit]. *)
Definition continuation (q : Query.t) (limit : Z)
  (b : DatastoreRequest.Batch) (results : list EntityResult) : Query.t :=
  if (limit >? -1)%Z
  then Query.limit (limit - Z.of_nat (length results))%Z
         (DatastoreRequest.next_query q b)
  else DatastoreRequest.next_query q b.

(** The number of results a batch carries. *)
Definition results_count (r : DatastoreRequest.RunQueryResponse) : nat :=
  match DatastoreRequest.entityResults (DatastoreRequest.batch r) with
  | Some results => length results
  | None => 0
  end.

(** A call of [save] or of [delete]. *)
Inductive Call :=
  | CallSave (entities : OneOrMany DatastoreRequest.EntityObject)
             (callback : option Callback)
  | CallDelete (keys : OneOrMany Key.t) (callback : option Callback).

Definition call (store : KeyStore)
  (this : DatastoreRequest.Context (Callback := Callback)) (c : Call)
  : JsError + DatastoreRequest.Effects :=
  match c with
  | CallSave entities callback =>
      DatastoreRequest.save store this entities callback
  | CallDelete keys callback =>
      inr (DatastoreRequest.delete this keys callback)
  end.

(** The number of [save] calls among some calls. *)
Fixpoint count_saves (cs : list Call) : nat :=
  match cs with
  | [] => 0
  | CallSave _ _ :: rest => S (count_saves rest)
  | CallDelete _ _ :: rest => count_saves rest
  end.

(** A call that does not throw: a [delete], or a [save] of entities whose
    methods are all accepted. *)
Definition call_accepted (c : Call) : Prop :=
  match c with
  | CallSave entities _ =>
      Forall (λ e, ∃ m, DatastoreRequest.choose_method
                          (DatastoreRequest.entity_method e) = inr m)
             (arrify entities)
  | CallDelete _ _ => True
  end.

(** A caller that makes the given calls one after the other on the same
    object and lets an exception end the sequence: the object and the
    requests dispatched so far, and the exception, if any. *)
Fixpoint calls_in_order (store : KeyStore)
  (this : DatastoreRequest.Context (Callback := Callback)) (cs : list Call)
  : DatastoreRequest.Effects * option JsError :=
  match cs with
  | [] =>
      ({| DatastoreRequest.effects_this := this;
          DatastoreRequest.effects_dispatched := [] |}, None)
  | c :: rest =>
      match call store this c with
      | inl e =>
          ({| DatastoreRequest.effects_this := this;
              DatastoreRequest.effects_dispatched := [] |}, Some e)
      | inr eff =>
          let '(eff', thrown) :=
            calls_in_order store (DatastoreRequest.effects_this eff) rest in
          ({| DatastoreRequest.effects_this :=
                DatastoreRequest.effects_this eff';
              DatastoreRequest.effects_dispatched :=
                DatastoreRequest.effects_dispatched eff
                  ++ DatastoreRequest.effects_dispatched eff' |}, thrown)
      end
  end.

End Observations.

(** ** A small codec to run the definitions on

    Keys and queries are their own wire form, entity results are strings, a
    property value is a number or an array of numbers, and a cursor prints as
    itself. *)
Module Sample.

Inductive value :=
  | Num (z : Z)
  | Arr (zs : list Z).

Definition encode (v : value) : ValueProto Z :=
  match v with
  | Num z => Value z None None
  | Arr zs => Value 0%Z (Some (Some ((λ z, Value z None None) <$> zs))) None
  end.

Definition complete (k : Key.t) : bool :=
  is_defined (Key.id k) || is_defined (Key.name k).

Definition entity : EntityModule :=
  {| KeyProto := Key.t; EntityResult := string; Entity := string;
     JsValue := value; Scalar := Z;
     DataObject := gmap string (ValueProto Z); QueryProto := Query.t;
     isKeyComplete := complete; keyToKeyProto := λ k, k;
     keyFromKeyProto := λ k, k; formatArray := λ rs, rs;
     encodeValue := encode; entityToEntityProto := λ o, o;
     queryToQueryProto := λ q, q;
     limit_value := λ q, Some (Query.limitVal q) |}.

Definition buffer : NodeBuffer :=
  {| Buffer := string; toString_base64 := λ b, b |}.

#[local] Existing Instance entity.
#[local] Existing Instance buffer.

(** A client outside any transaction and a transaction with id ['1234']. *)
Definition client : DatastoreRequest.Context (Callback := string) :=
  {| DatastoreRequest.this_id := None;
     DatastoreRequest.this_projectId := Some "project-id";
     DatastoreRequest.requests_ := [];
     DatastoreRequest.requestCallbacks_ := [] |}.

Definition transaction : DatastoreRequest.Context (Callback := string) :=
  {| DatastoreRequest.this_id := Some "1234";
     DatastoreRequest.this_projectId := Some "project-id";
     DatastoreRequest.requests_ := [];
     DatastoreRequest.requestCallbacks_ := [] |}.

(** An object whose [id] is the empty string: defined, yet falsy. *)
Definition blank : DatastoreRequest.Context (Callback := string) :=
  {| DatastoreRequest.this_id := Some "";
     DatastoreRequest.this_projectId := Some "project-id";
     DatastoreRequest.requests_ := [];
     DatastoreRequest.requestCallbacks_ := [] |}.

(** [datastore.key(['Company'])] and [datastore.key(['Company', 123])], and
    the keys the server generates from the former. *)
Definition incompleteKey : Key.t :=
  {| Key.namespace := None; Key.ancestors := []; Key.kind := "Company"; Key.id := None;
     Key.name := None |}.

Definition completeKey : Key.t :=
  {| Key.namespace := None; Key.ancestors := []; Key.kind := "Company"; Key.id := Some 123%Z;
     Key.name := None |}.

Definition generatedKey (n : Z) : Key.t :=
  {| Key.namespace := None; Key.ancestors := []; Key.kind := "Company"; Key.id := Some n;
     Key.name := None |}.

(** The caller's [Key] objects: object 1 is complete, every other one is
    incomplete. *)
Definition store : KeyStore :=
  λ ref, match ref with
         | 1 => completeKey
         | _ => incompleteKey
         end.

(** [{ name: 'rating', value: 10, excludeFromIndexes: true }] and
    [{ name: 'tags', value: [1, 2, 3], excludeFromIndexes: true }]. *)
Definition rating : DatastoreRequest.PropertyEntry :=
  {| DatastoreRequest.entry_name := "rating";
     DatastoreRequest.entry_value := Num 10;
     DatastoreRequest.entry_excludeFromIndexes := Some true |}.

Definition tags : DatastoreRequest.PropertyEntry :=
  {| DatastoreRequest.entry_name := "tags";
     DatastoreRequest.entry_value := Arr [1; 2; 3]%Z;
     DatastoreRequest.entry_excludeFromIndexes := Some true |}.

(** An entity object on [Key] object [ref] with the given [method]. *)
Definition company (ref : nat) (m : option string)
  : DatastoreRequest.EntityObject :=
  {| DatastoreRequest.entity_key := ref;
     DatastoreRequest.entity_method := m;
     DatastoreRequest.entity_data := DatastoreRequest.DataArray [rating] |}.

(** An entity object on [Key] object [ref] whose data lists both. *)
Definition tagged (ref : nat) : DatastoreRequest.EntityObject :=
  {| DatastoreRequest.entity_key := ref;
     DatastoreRequest.entity_method := None;
     DatastoreRequest.entity_data :=
       DatastoreRequest.DataArray [rating; tags] |}.

(** A mutation result that carries a generated key, and a commit reply with
    one such result per mutation. *)
Definition generated (n : Z) : DatastoreRequest.MutationResult :=
  {| DatastoreRequest.result_key := Some (generatedKey n) |}.

Definition committed (ids : list Z) : DatastoreRequest.CommitResponse :=
  {| DatastoreRequest.mutationResults := Some (generated <$> ids) |}.

(** [datastore.createQuery('Lion')] with the given limit and offset. *)
Definition lions (limit offset : Z) : Query.t :=
  {| Query.namespace := None; Query.kinds := ["Lion"];
     Query.selectVal := []; Query.limitVal := limit;
     Query.offsetVal := offset; Query.startVal := None;
     Query.endVal := None |}.

(** A reply to [runQuery]. *)
Definition page (results : option (list string)) (more cursor : string)
  (skipped : Z) : DatastoreRequest.RunQueryResponse :=
  {| DatastoreRequest.batch :=
       {| DatastoreRequest.entityResults := results;
          DatastoreRequest.moreResults := more;
          DatastoreRequest.endCursor := cursor;
          DatastoreRequest.skippedResults := skipped |} |}.

(** The same codec, except that the wire form of a query carries the
    [limit] wrapper only when the query sets a limit; a client and a reply
    for it. *)
Definition sparse : EntityModule :=
  {| KeyProto := Key.t; EntityResult := string; Entity := string;
     JsValue := value; Scalar := Z;
     DataObject := gmap string (ValueProto Z); QueryProto := Query.t;
     isKeyComplete := complete; keyToKeyProto := λ k, k;
     keyFromKeyProto := λ k, k; formatArray := λ rs, rs;
     encodeValue := encode; entityToEntityProto := λ o, o;
     queryToQueryProto := λ q, q;
     limit_value := λ q, if (Query.limitVal q >? -1)%Z
                         then Some (Query.limitVal q) else None |}.

Section Sparse.
#[local] Existing Instance sparse.

Definition sparse_client : DatastoreRequest.Context (Callback := string) :=
  {| DatastoreRequest.this_id := None;
     DatastoreRequest.this_projectId := Some "project-id";
     DatastoreRequest.requests_ := [];
     DatastoreRequest.requestCallbacks_ := [] |}.

Definition sparse_page (results : option (list string))
  (more cursor : string) (skipped : Z) : DatastoreRequest.RunQueryResponse :=
  {| DatastoreRequest.batch :=
       {| DatastoreRequest.entityResults := results;
          DatastoreRequest.moreResults := more;
          DatastoreRequest.endCursor := cursor;
          DatastoreRequest.skippedResults := skipped |} |}.

End Sparse.

End Sample.

(** ** Properties of [allocateIds] *)

Section AllocateIds.
Context `{EntityModule} `{NodeBuffer} {Callback ApiError : Type}.

Lemma push_keys_replicate (rounds : nat) (keyProto : KeyProto)
  (incompleteKeys : list KeyProto) :
  DatastoreRequest.push_keys rounds keyProto incompleteKeys
  = incompleteKeys ++ replicate rounds keyProto.
Proof.
  revert incompleteKeys.
  induction rounds as [|rounds IH]; intros incompleteKeys; simpl.
  - by rewrite app_nil_r.
  - rewrite IH, <- app_assoc. done.
Qed.


End AllocateIds.

(** ** Properties of [save] and [delete] *)

Section Save.
Context `{EntityModule} `{NodeBuffer} {Callback ApiError : Type}.

Implicit Types (this : DatastoreRequest.Context (Callback := Callback)).
Implicit Types (e entityObject : DatastoreRequest.EntityObject).
Implicit Types (ms : list DatastoreRequest.Mutation).
Implicit Types (ix insertIndexes : gmap nat bool).

(** [request_] leaves the mutations of a body alone. *)
Lemma request_reqOpts_mutations this protoOpts reqOpts :
  DatastoreRequest.mutations
    (DatastoreRequest.request_reqOpts this protoOpts reqOpts)
  = DatastoreRequest.mutations reqOpts.
Proof.
  unfold DatastoreRequest.request_reqOpts.
  repeat match goal with
         | |- context [if ?b then _ else _] => destruct b
         end; reflexivity.
Qed.

(** A commit sent outside any transaction is marked non-transactional. *)
Lemma request_reqOpts_commit_mode this reqOpts :
  DatastoreRequest.this_id this = None →
  DatastoreRequest.mode
    (DatastoreRequest.request_reqOpts this DatastoreRequest.commit_protoOpts
       reqOpts)
  = Some "NON_TRANSACTIONAL".
Proof.
  intros Hid. unfold DatastoreRequest.request_reqOpts. rewrite Hid.
  reflexivity.
Qed.

(** What [entities.forEach] has built when it ran to its end. *)
Lemma forEach_entities_inr (store : KeyStore) es :
  ∀ idx ix ms ix' ms',
    DatastoreRequest.forEach_entities store idx es (ix, ms) = inr (ix', ms') →
    ∃ new,
      ms' = ms ++ new
      ∧ Forall2 (λ e mu, ∃ m,
                   DatastoreRequest.choose_method
                     (DatastoreRequest.entity_method e) = inr m
                   ∧ mu = entity_mutation store m e) es new
      ∧ ∀ j, ix' !! j
             = match (if decide (idx ≤ j) then es !! (j - idx) else None) with
               | Some e =>
                   if isKeyComplete (store (DatastoreRequest.entity_key e))
                   then ix !! j else Some true
               | None => ix !! j
               end.
Proof.
  induction es as [|e es IH]; intros idx ix ms ix' ms' Hrun; simpl in Hrun.
  - injection Hrun as <- <-. exists []. rewrite app_nil_r.
    split; [done|]. split; [constructor|].
    intros j. case_decide; [|done]. by rewrite lookup_nil.
  - unfold DatastoreRequest.forEach_body in Hrun.
    destruct (DatastoreRequest.choose_method _) as [err|m] eqn:Hm; [done|].
    apply IH in Hrun as (new & -> & Hnew & Hix).
    exists (entity_mutation store m e :: new). split.
    { rewrite <- app_assoc. reflexivity. }
    split.
    { constructor; [by exists m | done]. }
    intros j. rewrite Hix. clear Hix IH Hnew.
    destruct (decide (j = idx)) as [->|Hne].
    + rewrite decide_False by lia. rewrite decide_True by lia.
      replace (idx - idx) with 0 by lia. simpl.
      destruct (isKeyComplete _); [done|]. by rewrite lookup_insert_eq.
    + assert (Hother :
        (if isKeyComplete (store (DatastoreRequest.entity_key e))
         then ix else <[idx:=true]> ix) !! j = ix !! j).
      { destruct (isKeyComplete _); [done|].
        by rewrite lookup_insert_ne. }
      rewrite Hother.
      destruct (decide (S idx ≤ j)) as [Hle|Hgt].
      * rewrite decide_True by lia.
        replace (j - idx) with (S (j - S idx)) by lia. reflexivity.
      * rewrite decide_False by lia. reflexivity.
Qed.

(** The loop stops at the first entity whose method is refused. *)
Lemma forEach_entities_inl (store : KeyStore) pre :
  ∀ idx ix ms e post err,
    Forall (λ e', ∃ m,
              DatastoreRequest.choose_method
                (DatastoreRequest.entity_method e') = inr m) pre →
    DatastoreRequest.choose_method (DatastoreRequest.entity_method e)
    = inl err →
    DatastoreRequest.forEach_entities store idx (pre ++ e :: post) (ix, ms)
    = inl err.
Proof.
  induction pre as [|e' pre IH]; intros idx ix ms e post err Hpre He; simpl.
  - unfold DatastoreRequest.forEach_body. by rewrite He.
  - inversion Hpre as [|? ? [m Hm] Hpre']; subst.
    unfold DatastoreRequest.forEach_body. rewrite Hm.
    by apply IH.
Qed.

(** The loop runs to its end when every method is accepted. *)
Lemma forEach_entities_total (store : KeyStore) es :
  ∀ idx ix ms,
    Forall (λ e, ∃ m,
              DatastoreRequest.choose_method
                (DatastoreRequest.entity_method e) = inr m) es →
    ∃ ix' ms',
      DatastoreRequest.forEach_entities store idx es (ix, ms) = inr (ix', ms').
Proof.
  induction es as [|e es IH]; intros idx ix ms Hes; simpl.
  - by eexists _, _.
  - inversion Hes as [|? ? [m Hm] Hes']; subst.
    unfold DatastoreRequest.forEach_body. rewrite Hm.
    by apply IH.
Qed.

(** The two ways [save] ends once the loop is through. *)
Lemma save_inr (store : KeyStore) this entities callback eff :
  DatastoreRequest.save store this entities callback = inr eff →
  ∃ ix ms,
    DatastoreRequest.forEach_entities store 0 (arrify entities) (∅, [])
    = inr (ix, ms)
    ∧ eff
      = if truthy (DatastoreRequest.this_id this) then
          {| DatastoreRequest.effects_this :=
               DatastoreRequest.push_requestCallback
                 (DatastoreRequest.OnCommit (arrify entities) ix callback)
                 (DatastoreRequest.push_request
                    (DatastoreRequest.mutations_reqOpts ms) this);
             DatastoreRequest.effects_dispatched := [] |}
        else
          {| DatastoreRequest.effects_this := this;
             DatastoreRequest.effects_dispatched :=
               [DatastoreRequest.request_ this
                  DatastoreRequest.commit_protoOpts
                  (DatastoreRequest.mutations_reqOpts ms)
                  (DatastoreRequest.OnCommit (arrify entities) ix callback)]
          |}.
Proof.
  unfold DatastoreRequest.save. intros Hsave.
  destruct (DatastoreRequest.forEach_entities _ _ _ _) as [err|[ix ms]];
    [done|].
  exists ix, ms. split; [done|].
  destruct (truthy _); by injection Hsave as <-.
Qed.

Lemma save_produced_mutations (store : KeyStore) this entities callback eff
  ix ms :
  DatastoreRequest.forEach_entities store 0 (arrify entities) (∅, [])
  = inr (ix, ms) →
  DatastoreRequest.save store this entities callback = inr eff →
  produced_mutations eff = ms.
Proof.
  intros Hrun Hsave. apply save_inr in Hsave as (ix' & ms' & Hrun' & ->).
  rewrite Hrun in Hrun'. injection Hrun' as <- <-.
  unfold produced_mutations, produced_reqOpts.
  destruct (truthy _); simpl.
  - by rewrite last_snoc.
  - by rewrite request_reqOpts_mutations.
Qed.

(** Membership in a list of names, as the lookups compute it. *)
Lemma existsb_eqb_elem_of (name : string) (names : list string) :
  existsb (String.eqb name) names = true ↔ name ∈ names.
Proof.
  induction names as [|n names IH]; simpl.
  - split; [done|]. by intros ?%elem_of_nil.
  - rewrite orb_true_iff, IH, elem_of_cons, String.eqb_eq. done.
Qed.

Lemma literal_lookup_truthy_false (own : list string) (name : string) :
  name ∉ own → name ∉ Object_prototype_names →
  literal_lookup_truthy own name = false.
Proof.
  intros Hown Hproto. unfold literal_lookup_truthy.
  apply orb_false_iff. split; apply not_true_is_false;
    by rewrite existsb_eqb_elem_of.
Qed.

Lemma choose_method_recognized (m : string) :
  m ∈ DatastoreRequest.methods →
  DatastoreRequest.choose_method (Some m) = inr m.
Proof.
  unfold DatastoreRequest.methods.
  rewrite !elem_of_cons, elem_of_nil.
  intros [->|[->|[->|[]]]]; reflexivity.
Qed.

Lemma choose_method_refused (m : string) :
  m ≠ "" → m ∉ DatastoreRequest.methods → m ∉ Object_prototype_names →
  DatastoreRequest.choose_method (Some m)
  = inl (Error ("Method " +:+ m +:+ " not recognized.")).
Proof.
  intros Hne Hown Hproto. unfold DatastoreRequest.choose_method, truthy.
  destruct (String.eqb_spec m "") as [->|_]; [done|]. simpl.
  by rewrite literal_lookup_truthy_false.
Qed.

(** C7, as the code has it.  The method of an entity's mutation is its
    [method] field when that is insert, update or upsert, and upsert when the
    field is missing or empty.  A non-empty [method] that is none of the three
    and not a name inherited from [Object.prototype] makes [save] throw the
    unrecognized-method error: the loop over the entities stops at the first
    such entity and nothing is queued or dispatched.  When [save] does not
    throw, the i-th mutation of its payload carries the method chosen for the
    i-th entity. *)
Theorem save_method (store : KeyStore) this
  (entities : OneOrMany DatastoreRequest.EntityObject)
  (callback : option Callback) :
  (∀ m, m ∈ ["insert"; "update"; "upsert"] →
        DatastoreRequest.choose_method (Some m) = inr m)
  ∧ DatastoreRequest.choose_method None = inr "upsert"
  ∧ DatastoreRequest.choose_method (Some "") = inr "upsert"
  ∧ (∀ m, m ≠ "" → m ∉ ["insert"; "update"; "upsert"] →
          m ∉ Object_prototype_names →
          DatastoreRequest.choose_method (Some m)
          = inl (Error ("Method " +:+ m +:+ " not recognized.")))
  ∧ (∀ eff i e,
       DatastoreRequest.save store this entities callback = inr eff →
       arrify entities !! i = Some e →
       ∃ m, DatastoreRequest.choose_method (DatastoreRequest.entity_method e)
            = inr m
            ∧ produced_mutations eff !! i = Some (entity_mutation store m e))
  ∧ (∀ pre e post err,
       arrify entities = pre ++ e :: post →
       Forall (λ e', ∃ m,
                 DatastoreRequest.choose_method
                   (DatastoreRequest.entity_method e') = inr m) pre →
       DatastoreRequest.choose_method (DatastoreRequest.entity_method e)
       = inl err →
       DatastoreRequest.save store this entities callback = inl err).
Proof.
  split; [exact choose_method_recognized|].
  split; [reflexivity|]. split; [reflexivity|].
  split; [exact choose_method_refused|]. split.
  - intros eff i e Hsave He.
    destruct (save_inr _ _ _ _ _ Hsave) as (ix & ms & Hrun & _).
    rewrite (save_produced_mutations _ _ _ _ _ _ _ Hrun Hsave).
    apply forEach_entities_inr in Hrun as (new & -> & Hnew & _).
    simpl. destruct (Forall2_lookup_l _ _ _ _ _ Hnew He)
      as (mu & Hmu & m & Hm & ->).
    by exists m.
  - intros pre e post err Hsplit Hpre He.
    unfold DatastoreRequest.save. rewrite Hsplit.
    by rewrite (forEach_entities_inl store pre 0 ∅ [] e post err Hpre He).
Qed.

(** Reading a name after [obj[name'] = v]. *)
Lemma assign_own_lookup {V} (name' : string) (v : V)
  (obj : gmap string V) (name : string) :
  assign_own name' v obj !! name
  = if decide (name' = name ∧ name ≠ "__proto__") then Some v
    else obj !! name.
Proof.
  unfold assign_own.
  destruct (String.eqb_spec name' "__proto__") as [->|Hproto].
  - case_decide as Hd; [|done]. by destruct Hd as [<- ?].
  - destruct (decide (name' = name)) as [<-|Hne].
    + rewrite lookup_insert_eq. by rewrite decide_True.
    + rewrite lookup_insert_ne by done.
      rewrite decide_False; [done|]. by intros [? _].
Qed.

(** The own properties of the object the [reduce] builds: under a name other
    than [__proto__], the encoding of the last entry of that name, if there
    is one; nothing under [__proto__]. *)
Lemma reduce_entries_lookup (entries : list DatastoreRequest.PropertyEntry)
  (name : string) :
  DatastoreRequest.reduce_entries entries !! name
  = if decide (name = "__proto__") then None
    else DatastoreRequest.encode_entry
           <$> list.last
                 (filter (λ data, DatastoreRequest.entry_name data = name)
                         entries).
Proof.
  unfold DatastoreRequest.reduce_entries.
  induction entries as [|data entries IH] using rev_ind.
  - cbn [foldl]. rewrite lookup_empty. by case_decide.
  - rewrite foldl_app, list.filter_app. cbn [foldl].
    rewrite assign_own_lookup, IH.
    destruct (decide (DatastoreRequest.entry_name data = name)) as [Heq|Hne].
    + rewrite (filter_cons_True _ data []) by done.
      rewrite filter_nil, last_snoc.
      destruct (decide (name = "__proto__")) as [Hproto|Hproto].
      * rewrite decide_False; [done|]. by intros [_ ?].
      * by rewrite decide_True.
    + rewrite (filter_cons_False _ data []) by done.
      rewrite filter_nil, app_nil_r.
      rewrite decide_False; [done|]. by intros [? _].
Qed.

(** The last entry of a name is an entry of that name. *)
Lemma last_filter_elem_of
  (entries : list DatastoreRequest.PropertyEntry) (name : string) data :
  list.last (filter (λ data, DatastoreRequest.entry_name data = name) entries)
  = Some data →
  data ∈ entries ∧ DatastoreRequest.entry_name data = name.
Proof.
  intros Hlast. apply last_Some in Hlast as [pre Hpre].
  assert (data ∈ filter (λ data, DatastoreRequest.entry_name data = name)
                        entries) as Hin.
  { rewrite Hpre. apply elem_of_app. right. apply list_elem_of_here. }
  by apply list_elem_of_filter in Hin as [? ?].
Qed.

(** What the [reduce] does to one entry whose [excludeFromIndexes] is a
    boolean. *)
Lemma encode_entry_flagged (data : DatastoreRequest.PropertyEntry)
  (excluded : bool) :
  DatastoreRequest.entry_excludeFromIndexes data = Some excluded →
  let value := encodeValue (DatastoreRequest.entry_value data) in
  let encoded := DatastoreRequest.encode_entry data in
  match arrayValue_values value with
  | Some values =>
      ∃ values',
        arrayValue_values encoded = Some values'
        ∧ length values' = length values
        ∧ Forall (λ v, excludeFromIndexes v = Some excluded) values'
        ∧ ∀ i v, values !! i = Some v →
                 values' !! i
                 = Some (Value (other v) (arrayValue v) (Some excluded))
  | None =>
      excludeFromIndexes encoded = Some excluded
      ∧ other encoded = other value
      ∧ arrayValue encoded = arrayValue value
  end.
Proof.
  intros Hflag value encoded.
  subst encoded. unfold DatastoreRequest.encode_entry.
  rewrite Hflag. fold value.
  destruct (arrayValue_values value) as [values|] eqn:Hvalues.
  - exists (propAssign_excludeFromIndexes excluded <$> values).
    split; [reflexivity|]. split; [by rewrite length_fmap|]. split.
    + apply list.Forall_forall. intros v Hv.
      apply list_elem_of_fmap in Hv as (v' & -> & _). reflexivity.
    + intros i v Hi. rewrite list_lookup_fmap, Hi. reflexivity.
  - done.
Qed.

(** C5.  When [save] is given an entity in the explicit property-list form,
    the mutation it prepares for that entity carries the property map built
    from the list: under every name but [__proto__] it holds the encoding of
    the last entry of that name, and nothing else.  For each entry whose
    [excludeFromIndexes] is a boolean that encoding is flagged: when the
    encoded value holds an array, the array keeps its length and every
    element carries the flag, being otherwise as encoded; when it does not,
    the flag sits on the value itself.  Hence every value of the saved
    property map that stems from such an entry is flagged in this way. *)
Theorem excludeFromIndexes_spec (store : KeyStore) this
  (entities : OneOrMany DatastoreRequest.EntityObject)
  (callback : option Callback) saved (i : nat) e
  (entries : list DatastoreRequest.PropertyEntry) :
  DatastoreRequest.save store this entities callback = inr saved →
  arrify entities !! i = Some e →
  DatastoreRequest.entity_data e = DatastoreRequest.DataArray entries →
  ∃ m entityProto,
    produced_mutations saved !! i
    = Some (DatastoreRequest.MutationEntity m entityProto)
    ∧ (∀ name,
         DatastoreRequest.properties entityProto !! name
         = if decide (name = "__proto__") then None
           else DatastoreRequest.encode_entry
                  <$> list.last
                        (filter
                           (λ data, DatastoreRequest.entry_name data = name)
                           entries))
    ∧ (∀ name v,
         DatastoreRequest.properties entityProto !! name = Some v →
         ∃ data, data ∈ entries
                 ∧ DatastoreRequest.entry_name data = name
                 ∧ v = DatastoreRequest.encode_entry data)
    ∧ (∀ data excluded,
         data ∈ entries →
         DatastoreRequest.entry_excludeFromIndexes data = Some excluded →
         let value := encodeValue (DatastoreRequest.entry_value data) in
         let encoded := DatastoreRequest.encode_entry data in
         match arrayValue_values value with
         | Some values =>
             ∃ values',
               arrayValue_values encoded = Some values'
               ∧ length values' = length values
               ∧ Forall (λ v, excludeFromIndexes v = Some excluded) values'
               ∧ ∀ j v, values !! j = Some v →
                        values' !! j
                        = Some (Value (other v) (arrayValue v)
                                      (Some excluded))
         | None =>
             excludeFromIndexes encoded = Some excluded
             ∧ other encoded = other value
             ∧ arrayValue encoded = arrayValue value
         end).
Proof.
  intros Hsave He Hdata.
  destruct (save_inr _ _ _ _ _ Hsave) as (ix & ms & Hrun & _).
  rewrite (save_produced_mutations _ _ _ _ _ _ _ Hrun Hsave).
  apply forEach_entities_inr in Hrun as (new & -> & Hnew & _).
  simpl. destruct (Forall2_lookup_l _ _ _ _ _ Hnew He)
    as (mu & Hmu & m & Hm & ->).
  unfold entity_mutation in Hmu. rewrite Hdata in Hmu.
  eexists m, _. split; [exact Hmu|]. cbn [DatastoreRequest.properties].
  split; [exact (reduce_entries_lookup entries)|]. split.
  - intros name v Hv. rewrite reduce_entries_lookup in Hv.
    case_decide; [done|].
    destruct (list.last _) as [data|] eqn:Hlast; [|done].
    injection Hv as <-. exists data.
    by destruct (last_filter_elem_of _ _ _ Hlast).
  - intros data excluded _ Hflag. by apply encode_entry_flagged.
Qed.

End Save.

(** ** Transactions and the commit reply *)

Section Transactions.
Context `{EntityModule} `{NodeBuffer} {Callback ApiError : Type}.

Implicit Types (this : DatastoreRequest.Context (Callback := Callback)).
Implicit Types (e entityObject : DatastoreRequest.EntityObject).
Implicit Types (ix insertIndexes : gmap nat bool).

(** C3.  On a context with a transaction id, [delete] and [save] hand
    nothing to the transport: the prepared body is appended to [requests_],
    which grows by exactly one.  Without a transaction id the body is sent at
    once as a commit (marked non-transactional when the id is undefined) and
    the queue is left alone.  [save] prepares a body when the methods of all
    entities are accepted. *)
Theorem transactional_buffering (store : KeyStore) this
  (keys : OneOrMany Key.t)
  (entities : OneOrMany DatastoreRequest.EntityObject)
  (callback : option Callback) :
  let deleted := DatastoreRequest.delete this keys callback in
  let deletions :=
    (λ k, DatastoreRequest.MutationDelete (keyToKeyProto k))
      <$> arrify keys in
  (truthy (DatastoreRequest.this_id this) = true →
   DatastoreRequest.effects_dispatched deleted = []
   ∧ DatastoreRequest.requests_ (DatastoreRequest.effects_this deleted)
     = DatastoreRequest.requests_ this
         ++ [DatastoreRequest.mutations_reqOpts deletions]
   ∧ length (DatastoreRequest.requests_
               (DatastoreRequest.effects_this deleted))
     = S (length (DatastoreRequest.requests_ this)))
  ∧ (truthy (DatastoreRequest.this_id this) = false →
     ∃ d,
       deleted
       = {| DatastoreRequest.effects_this := this;
            DatastoreRequest.effects_dispatched := [d] |}
       ∧ DatastoreRequest.dispatch_protoOpts d
         = {| DatastoreRequest.service := "Datastore";
              DatastoreRequest.method := "commit" |}
       ∧ DatastoreRequest.mutations (DatastoreRequest.dispatch_reqOpts d)
         = Some deletions
       ∧ DatastoreRequest.dispatch_handler d
         = DatastoreRequest.DeleteHandler callback
       ∧ (DatastoreRequest.this_id this = None →
          DatastoreRequest.mode (DatastoreRequest.dispatch_reqOpts d)
          = Some "NON_TRANSACTIONAL"))
  ∧ (Forall (λ e, ∃ m, DatastoreRequest.choose_method
                         (DatastoreRequest.entity_method e) = inr m)
            (arrify entities) →
     ∃ saved ms,
       DatastoreRequest.save store this entities callback = inr saved
       ∧ Forall2 (λ e mu, ∃ m,
                    DatastoreRequest.choose_method
                      (DatastoreRequest.entity_method e) = inr m
                    ∧ mu = entity_mutation store m e) (arrify entities) ms
       ∧ (truthy (DatastoreRequest.this_id this) = true →
          DatastoreRequest.effects_dispatched saved = []
          ∧ DatastoreRequest.requests_ (DatastoreRequest.effects_this saved)
            = DatastoreRequest.requests_ this
                ++ [DatastoreRequest.mutations_reqOpts ms]
          ∧ length (DatastoreRequest.requests_
                      (DatastoreRequest.effects_this saved))
            = S (length (DatastoreRequest.requests_ this)))
       ∧ (truthy (DatastoreRequest.this_id this) = false →
          ∃ d,
            saved
            = {| DatastoreRequest.effects_this := this;
                 DatastoreRequest.effects_dispatched := [d] |}
            ∧ DatastoreRequest.dispatch_protoOpts d
              = {| DatastoreRequest.service := "Datastore";
                   DatastoreRequest.method := "commit" |}
            ∧ DatastoreRequest.mutations (DatastoreRequest.dispatch_reqOpts d)
              = Some ms
            ∧ (DatastoreRequest.this_id this = None →
               DatastoreRequest.mode (DatastoreRequest.dispatch_reqOpts d)
               = Some "NON_TRANSACTIONAL"))).
Proof.
  intros deleted deletions. subst deleted.
  unfold DatastoreRequest.delete. fold deletions.
  split; [|split].
  - intros Hid. rewrite Hid. simpl. rewrite length_app. simpl.
    repeat split; lia.
  - intros Hid. rewrite Hid. eexists. repeat split;
      unfold DatastoreRequest.request_; simpl.
    + by rewrite request_reqOpts_mutations.
    + by apply request_reqOpts_commit_mode.
  - intros Hok.
    destruct (forEach_entities_total store (arrify entities) 0 ∅ [] Hok)
      as (ix & ms & Hrun).
    pose proof (forEach_entities_inr store _ _ _ _ _ _ Hrun)
      as (new & Hms & Hnew & _).
    simpl in Hms. subst new.
    assert (Hsave :
      ∃ saved,
        DatastoreRequest.save store this entities callback = inr saved).
    { unfold DatastoreRequest.save. rewrite Hrun.
      destruct (truthy _); by eexists. }
    destruct Hsave as [saved Hsave]. exists saved, ms.
    split; [done|]. split; [done|].
    destruct (save_inr _ _ _ _ _ Hsave) as (ix' & ms' & Hrun' & Hsaved).
    rewrite Hrun in Hrun'. injection Hrun' as <- <-.
    split; intros Hid; rewrite Hid in Hsaved; subst saved; simpl.
    + rewrite length_app. simpl. repeat split; lia.
    + eexists. repeat split; unfold DatastoreRequest.request_; simpl.
      * by rewrite request_reqOpts_mutations.
      * by apply request_reqOpts_commit_mode.
Qed.

(** C9.  On a context with a transaction id, [delete] invokes nothing and
    leaves [requestCallbacks_] as it was; what it leaves behind is the same
    whatever callback it was given, so the callback is recorded nowhere.  A
    [save] on the same context appends its [onCommit], which holds the
    caller's callback, next to the body it queues. *)
Theorem transactional_delete_callback (store : KeyStore) this
  (keys : OneOrMany Key.t)
  (entities : OneOrMany DatastoreRequest.EntityObject)
  (callback : option Callback) :
  truthy (DatastoreRequest.this_id this) = true →
  let deleted := DatastoreRequest.delete this keys callback in
  DatastoreRequest.effects_dispatched deleted = []
  ∧ DatastoreRequest.requestCallbacks_ (DatastoreRequest.effects_this deleted)
    = DatastoreRequest.requestCallbacks_ this
  ∧ length (DatastoreRequest.requests_ (DatastoreRequest.effects_this deleted))
    = S (length (DatastoreRequest.requests_ this))
  ∧ (∀ callback', DatastoreRequest.delete this keys callback' = deleted)
  ∧ (Forall (λ e, ∃ m, DatastoreRequest.choose_method
                         (DatastoreRequest.entity_method e) = inr m)
            (arrify entities) →
     ∃ saved ix body,
       DatastoreRequest.save store this entities callback = inr saved
       ∧ DatastoreRequest.requestCallbacks_
           (DatastoreRequest.effects_this saved)
         = DatastoreRequest.requestCallbacks_ this
             ++ [DatastoreRequest.OnCommit (arrify entities) ix callback]
       ∧ DatastoreRequest.requests_ (DatastoreRequest.effects_this saved)
         = DatastoreRequest.requests_ this ++ [body]).
Proof.
  intros Hid deleted. subst deleted. unfold DatastoreRequest.delete.
  rewrite Hid. simpl. rewrite length_app. simpl.
  repeat split; [lia|].
  intros Hok.
  destruct (forEach_entities_total store (arrify entities) 0 ∅ [] Hok)
    as (ix & ms & Hrun).
  unfold DatastoreRequest.save. rewrite Hrun, Hid.
  by eexists _, ix, _.
Qed.

(** A loop over the results leaves alone every [Key] object that no entity
    from [idx] on refers to. *)
Lemma forEach_results_frame (es : list DatastoreRequest.EntityObject) ix
  (l : nat) (results : list DatastoreRequest.MutationResult) :
  ∀ idx (store : KeyStore),
    (∀ j e, idx ≤ j → es !! j = Some e →
            DatastoreRequest.entity_key e ≠ l) →
    (DatastoreRequest.forEach_results es ix idx results store).1 l = store l.
Proof.
  induction results as [|result results IH]; intros idx store Hfree; simpl.
  - done.
  - assert (Hnext : ∀ j e, S idx ≤ j → es !! j = Some e →
                           DatastoreRequest.entity_key e ≠ l).
    { intros j e Hj. apply Hfree. lia. }
    destruct (DatastoreRequest.result_key result) as [keyProto|];
      [|by apply IH].
    destruct (DatastoreRequest.marked ix idx); [|by apply IH].
    destruct (es !! idx) as [e|] eqn:He; [|done].
    rewrite IH by done.
    apply fn_lookup_alter_ne. by apply (Hfree idx).
Qed.

(** With marks that all point at entities, the loop over the results never
    throws. *)
Lemma forEach_results_no_throw (es : list DatastoreRequest.EntityObject) ix
  (results : list DatastoreRequest.MutationResult) :
  (∀ j, DatastoreRequest.marked ix j = true → is_Some (es !! j)) →
  ∀ idx (store : KeyStore),
    (DatastoreRequest.forEach_results es ix idx results store).2 = None.
Proof.
  intros Hmarks.
  induction results as [|result results IH]; intros idx store; simpl.
  - done.
  - destruct (DatastoreRequest.result_key result) as [keyProto|]; [|done].
    destruct (DatastoreRequest.marked ix idx) eqn:Hm; [|done].
    destruct (Hmarks _ Hm) as [e ->]. done.
Qed.

(** The write for index [i] is the last word on entity [i]'s key when no
    later entity refers to the same [Key] object. *)
Lemma forEach_results_hit (es : list DatastoreRequest.EntityObject) ix
  (i : nat) e (keyProto : KeyProto) :
  (∀ j, DatastoreRequest.marked ix j = true → is_Some (es !! j)) →
  DatastoreRequest.marked ix i = true →
  es !! i = Some e →
  (∀ j e', i < j → es !! j = Some e' →
           DatastoreRequest.entity_key e'
           ≠ DatastoreRequest.entity_key e) →
  ∀ (results : list DatastoreRequest.MutationResult) idx (store : KeyStore)
    result,
    idx ≤ i →
    results !! (i - idx) = Some result →
    DatastoreRequest.result_key result = Some keyProto →
    Key.id ((DatastoreRequest.forEach_results es ix idx results store).1
              (DatastoreRequest.entity_key e))
    = Key.id (keyFromKeyProto keyProto).
Proof.
  intros Hmarks Hi He Hlater.
  induction results as [|r results IH];
    intros idx store result Hle Hres Hkey; [done|].
  destruct (decide (idx = i)) as [->|Hne].
  - replace (i - i) with 0 in Hres by lia. injection Hres as ->.
    simpl. rewrite Hkey, Hi, He.
    rewrite forEach_results_frame.
    + by rewrite fn_lookup_alter.
    + intros j e' Hj. apply Hlater. lia.
  - replace (i - idx) with (S (i - S idx)) in Hres by lia. simpl in Hres.
    simpl.
    destruct (DatastoreRequest.result_key r) as [keyProto'|].
    + destruct (DatastoreRequest.marked ix idx) eqn:Hm.
      * destruct (Hmarks _ Hm) as [e' ->].
        eapply IH; [lia|done..].
      * eapply IH; [lia|done..].
    + eapply IH; [lia|done..].
Qed.

(** The marks [save] hands to [onCommit] point at the entities whose key
    was incomplete when [save] ran. *)
Lemma forEach_entities_marks (store : KeyStore)
  (es : list DatastoreRequest.EntityObject) ix
  (ms : list DatastoreRequest.Mutation) :
  DatastoreRequest.forEach_entities store 0 es (∅, []) = inr (ix, ms) →
  ∀ j, DatastoreRequest.marked ix j = true
       ↔ ∃ e, es !! j = Some e
              ∧ isKeyComplete (store (DatastoreRequest.entity_key e)) = false.
Proof.
  intros Hrun j.
  apply forEach_entities_inr in Hrun as (_ & _ & _ & Hix).
  unfold DatastoreRequest.marked. rewrite Hix.
  rewrite decide_True by lia. replace (j - 0) with j by lia.
  rewrite lookup_empty.
  destruct (es !! j) as [e|].
  - destruct (isKeyComplete _) eqn:Hc.
    + split; [done|]. intros (e' & [= <-] & He'). congruence.
    + split; [intros _; by exists e|done].
  - split; [done|]. by intros (e' & ? & _).
Qed.

(** C4, as the code has it.  [save] registers [onCommit], queued or
    dispatched.  When the commit succeeds and the result at the index of an
    entity saved with an incomplete key carries a key, [onCommit] writes the
    id of that key into the caller's [Key] object of the entity, and the
    object still holds it when [onCommit] is through provided no later entity
    of the same call refers to the same [Key] object.  The callback then
    receives [(null, resp)]. *)
Theorem save_writes_generated_id (store : KeyStore) this
  (entities : OneOrMany DatastoreRequest.EntityObject)
  (callback : option Callback) (saved : DatastoreRequest.Effects) :
  DatastoreRequest.save store this entities callback = inr saved →
  ∃ ix,
    (if truthy (DatastoreRequest.this_id this)
     then DatastoreRequest.requestCallbacks_
            (DatastoreRequest.effects_this saved)
          = DatastoreRequest.requestCallbacks_ this
              ++ [DatastoreRequest.OnCommit (arrify entities) ix callback]
     else DatastoreRequest.dispatch_handler
            <$> DatastoreRequest.effects_dispatched saved
          = [DatastoreRequest.OnCommit (arrify entities) ix callback])
    ∧ ∀ (store' : KeyStore) (resp : DatastoreRequest.CommitResponse)
        i e result keyProto,
        arrify entities !! i = Some e →
        isKeyComplete (store (DatastoreRequest.entity_key e)) = false →
        arrify_field (DatastoreRequest.mutationResults resp) !! i
        = Some result →
        DatastoreRequest.result_key result = Some keyProto →
        (∀ j e', i < j → arrify entities !! j = Some e' →
                 DatastoreRequest.entity_key e'
                 ≠ DatastoreRequest.entity_key e) →
        let after :=
          DatastoreRequest.onCommit (ApiError := ApiError)
            (arrify entities) ix callback store' None (Some resp) in
        Key.id (after.1 (DatastoreRequest.entity_key e))
        = Key.id (keyFromKeyProto keyProto)
        ∧ after.2
          = DatastoreRequest.call_commit_callback callback None (Some resp).
Proof.
  intros Hsave.
  apply save_inr in Hsave as (ix & ms & Hrun & ->).
  exists ix. split.
  { destruct (truthy _); reflexivity. }
  intros store' resp i e result keyProto He Hincomplete Hres Hkey Hlater.
  pose proof (forEach_entities_marks _ _ _ _ Hrun) as Hmarks.
  assert (Hvalid : ∀ j, DatastoreRequest.marked ix j = true →
                        is_Some (arrify entities !! j)).
  { intros j [e' [He' _]]%Hmarks. by exists e'. }
  assert (Hi : DatastoreRequest.marked ix i = true).
  { apply Hmarks. by exists e. }
  simpl. unfold DatastoreRequest.onCommit.
  pose proof (forEach_results_no_throw (arrify entities) ix
                (arrify_field (DatastoreRequest.mutationResults resp))
                Hvalid 0 store') as Hno.
  pose proof (forEach_results_hit (arrify entities) ix i e keyProto
                Hvalid Hi He Hlater
                (arrify_field (DatastoreRequest.mutationResults resp))
                0 store' result) as Hhit.
  destruct (DatastoreRequest.forEach_results _ _ _ _ _) as [store'' thrown].
  simpl in Hno, Hhit. subst thrown. simpl. split; [|done].
  apply Hhit; [lia| |done]. by replace (i - 0) with i by lia.
Qed.

End Transactions.

(** ** Properties of [runQuery] *)

Section RunQuery.
Context `{EntityModule} `{NodeBuffer} {Callback ApiError : Type}.

Implicit Types (this : DatastoreRequest.Context (Callback := Callback)).
Implicit Types (st : DatastoreRequest.RunState).
Implicit Types (resp last : DatastoreRequest.RunQueryResponse).

Lemma request_reqOpts_query this protoOpts reqOpts :
  DatastoreRequest.query
    (DatastoreRequest.request_reqOpts this protoOpts reqOpts)
  = DatastoreRequest.query reqOpts.
Proof.
  unfold DatastoreRequest.request_reqOpts.
  repeat match goal with
         | |- context [if ?b then _ else _] => destruct b
         end; reflexivity.
Qed.

Lemma runQuery_reqOpts_query (q : Query.t) :
  DatastoreRequest.query (DatastoreRequest.runQuery_reqOpts q)
  = Some (queryToQueryProto q).
Proof.
  unfold DatastoreRequest.runQuery_reqOpts.
  destruct (Query.namespace q) as [ns|]; [|done].
  destruct (truthy _); reflexivity.
Qed.

(** The fields of the continuation query. *)
Lemma next_query_fields (q : Query.t) (b : DatastoreRequest.Batch) :
  let nq := DatastoreRequest.next_query q b in
  Query.startVal nq
  = Some (toString_base64 (DatastoreRequest.endCursor b))
  ∧ Query.offsetVal nq
    = (requested_offset q - DatastoreRequest.skippedResults b)%Z
  ∧ Query.namespace nq = Query.namespace q
  ∧ Query.kinds nq = Query.kinds q
  ∧ Query.selectVal nq = Query.selectVal q
  ∧ Query.limitVal nq = Query.limitVal q
  ∧ Query.endVal nq = Query.endVal q.
Proof. repeat split. Qed.

(** One NOT_FINISHED batch that carries its results: the entities are kept
    and the request is issued again for the continuation query. *)
Lemma onResponse_notFinished this (q : Query.t) (orig : Z)
  (callback : Callback) st resp queryProto limit results :
  DatastoreRequest.moreResults (DatastoreRequest.batch resp)
  = "NOT_FINISHED" →
  DatastoreRequest.query (DatastoreRequest.reqOpts st) = Some queryProto →
  limit_value queryProto = Some limit →
  DatastoreRequest.entityResults (DatastoreRequest.batch resp)
  = Some results →
  ∃ d,
    DatastoreRequest.onResponse (ApiError := ApiError) this q orig callback
      st None (Some resp)
    = DatastoreRequest.Reissue
        {| DatastoreRequest.entities :=
             DatastoreRequest.entities st ++ formatArray results;
           DatastoreRequest.reqOpts := DatastoreRequest.dispatch_reqOpts d |}
        d
    ∧ DatastoreRequest.dispatch_protoOpts d
      = DatastoreRequest.runQuery_protoOpts
    ∧ DatastoreRequest.query (DatastoreRequest.dispatch_reqOpts d)
      = Some (queryToQueryProto
                (continuation q limit (DatastoreRequest.batch resp)
                   results)).
Proof.
  intros Hmore Hquery Hlimit Hresults.
  unfold DatastoreRequest.onResponse.
  rewrite Hmore, Hquery, Hresults. simpl. rewrite Hlimit.
  exists (DatastoreRequest.request_ this DatastoreRequest.runQuery_protoOpts
            (DatastoreRequest.set_query
               (queryToQueryProto
                  (continuation q limit (DatastoreRequest.batch resp)
                     results))
               (DatastoreRequest.reqOpts st))
            (DatastoreRequest.OnResponse q callback)).
  split; [|split; [reflexivity|]].
  - unfold continuation.
    destruct (limit >? -1)%Z; reflexivity.
  - unfold DatastoreRequest.request_. simpl.
    by rewrite request_reqOpts_query.
Qed.

(** A MORE_RESULTS_AFTER_LIMIT batch ends the call. *)
Lemma onResponse_moreResults this (q : Query.t) (orig : Z)
  (callback : Callback) st resp :
  DatastoreRequest.moreResults (DatastoreRequest.batch resp)
  = "MORE_RESULTS_AFTER_LIMIT" →
  DatastoreRequest.onResponse (ApiError := ApiError) this q orig callback
    st None (Some resp)
  = DatastoreRequest.Return
      {| DatastoreRequest.run_callback := callback;
         DatastoreRequest.run_err := None;
         DatastoreRequest.run_entities :=
           Some (DatastoreRequest.entities st ++ decoded_entities resp);
         DatastoreRequest.run_nextQuery :=
           Some (if (orig >? -1)%Z
                 then Query.limit orig
                        (DatastoreRequest.next_query q
                           (DatastoreRequest.batch resp))
                 else DatastoreRequest.next_query q
                        (DatastoreRequest.batch resp));
         DatastoreRequest.run_apiResponse := Some resp |}.
Proof.
  intros Hmore. unfold DatastoreRequest.onResponse, decoded_entities.
  rewrite Hmore. simpl.
  destruct (DatastoreRequest.entityResults _);
    destruct (orig >? -1)%Z; by rewrite ?app_nil_r.
Qed.

(** C1, as the code has it.  On a reply that reports NOT_FINISHED or
    MORE_RESULTS_AFTER_LIMIT, [nextQuery] is a copy of [query] whose start
    cursor is the base64 text of the batch's end cursor and whose offset is
    the offset of [query] (0 when unset) minus the batch's [skippedResults].
    Nothing clamps that difference: it is non-negative exactly when
    [skippedResults] does not exceed the offset.  This is the query handed to
    the callback (with the original limit written back when there is one)
    and the query whose wire form is sent when the request is issued again
    (with the remaining limit, when there is one). *)
Theorem nextQuery_spec this (q : Query.t) (orig : Z) (callback : Callback)
  st resp :
  DatastoreRequest.moreResults (DatastoreRequest.batch resp) = "NOT_FINISHED"
  ∨ DatastoreRequest.moreResults (DatastoreRequest.batch resp)
    = "MORE_RESULTS_AFTER_LIMIT" →
  ∃ nextQuery,
    Query.startVal nextQuery
    = Some (toString_base64
              (DatastoreRequest.endCursor (DatastoreRequest.batch resp)))
    ∧ Query.offsetVal nextQuery
      = (requested_offset q
         - DatastoreRequest.skippedResults (DatastoreRequest.batch resp))%Z
    ∧ ((0 ≤ Query.offsetVal nextQuery)%Z
       ↔ (DatastoreRequest.skippedResults (DatastoreRequest.batch resp)
          ≤ requested_offset q)%Z)
    ∧ Query.namespace nextQuery = Query.namespace q
    ∧ Query.kinds nextQuery = Query.kinds q
    ∧ Query.selectVal nextQuery = Query.selectVal q
    ∧ Query.limitVal nextQuery = Query.limitVal q
    ∧ Query.endVal nextQuery = Query.endVal q
    ∧ match DatastoreRequest.onResponse (ApiError := ApiError) this q orig
              callback st None (Some resp) with
      | DatastoreRequest.Return args =>
          DatastoreRequest.run_nextQuery args
          = Some (if (orig >? -1)%Z then Query.limit orig nextQuery
                  else nextQuery)
      | DatastoreRequest.Reissue st' d =>
          ∃ limited,
            DatastoreRequest.query (DatastoreRequest.dispatch_reqOpts d)
            = Some (queryToQueryProto limited)
            ∧ (limited = nextQuery
               ∨ ∃ n, limited = Query.limit n nextQuery)
      | DatastoreRequest.Throw _ => True
      end.
Proof.
  intros Hmore.
  exists (DatastoreRequest.next_query q (DatastoreRequest.batch resp)).
  destruct (next_query_fields q (DatastoreRequest.batch resp))
    as (Hstart & Hoffset & Hns & Hkinds & Hselect & Hlimit & Hend).
  do 2 (split; [done|]). split; [rewrite Hoffset; lia|].
  do 5 (split; [done|]).
  destruct Hmore as [Hmore|Hmore].
  - destruct (DatastoreRequest.query (DatastoreRequest.reqOpts st))
      as [queryProto|] eqn:Hquery.
    + destruct (limit_value queryProto) as [limit|] eqn:Hlimitv.
      * destruct (DatastoreRequest.entityResults
                    (DatastoreRequest.batch resp))
          as [results|] eqn:Hresults.
        -- destruct (onResponse_notFinished this q orig callback st resp
                       queryProto limit results Hmore Hquery Hlimitv
                       Hresults)
             as (d & -> & _ & Hsent).
           eexists. split; [exact Hsent|]. unfold continuation.
           destruct (limit >? -1)%Z; [right; by eexists|by left].
        -- unfold DatastoreRequest.onResponse.
           rewrite Hmore, Hquery, Hresults. simpl. rewrite Hlimitv.
           destruct (limit >? -1)%Z; [done|].
           eexists. split; [|by left].
           unfold DatastoreRequest.request_. simpl.
           by rewrite request_reqOpts_query.
      * unfold DatastoreRequest.onResponse.
        rewrite Hmore, Hquery. simpl. by rewrite Hlimitv.
    + unfold DatastoreRequest.onResponse. rewrite Hmore, Hquery. by simpl.
  - by rewrite onResponse_moreResults.
Qed.

(** C10.  On a NOT_FINISHED reply to a request whose limit exceeds -1,
    [onResponse] reads [resp.batch.entityResults.length].  With the results
    present, the request goes out again for the continuation query, whose
    limit is the remainder.  With [entityResults] missing, a TypeError is
    thrown; a [runQuery] whose first reply is such a batch ends with that
    exception and never invokes the callback, whatever replies might
    follow. *)
Theorem notFinished_needs_entityResults this (q : Query.t) (orig : Z)
  (callback : Callback) st resp queryProto (limit : Z) :
  DatastoreRequest.moreResults (DatastoreRequest.batch resp)
  = "NOT_FINISHED" →
  DatastoreRequest.query (DatastoreRequest.reqOpts st) = Some queryProto →
  limit_value queryProto = Some limit →
  (limit > -1)%Z →
  match DatastoreRequest.entityResults (DatastoreRequest.batch resp) with
  | Some results =>
      ∃ st' d,
        DatastoreRequest.onResponse (ApiError := ApiError) this q orig
          callback st None (Some resp)
        = DatastoreRequest.Reissue st' d
        ∧ DatastoreRequest.entities st'
          = DatastoreRequest.entities st ++ formatArray results
        ∧ DatastoreRequest.query (DatastoreRequest.dispatch_reqOpts d)
          = Some (queryToQueryProto
                    (Query.limit
                       (limit - Z.of_nat (length results))%Z
                       (DatastoreRequest.next_query q
                          (DatastoreRequest.batch resp))))
  | None =>
      DatastoreRequest.onResponse (ApiError := ApiError) this q orig callback
        st None (Some resp)
      = DatastoreRequest.Throw
          (TypeError "Cannot read property 'length' of undefined")
      ∧ (limit_value (queryToQueryProto q) = Some limit →
         ∀ rest,
           let events :=
             DatastoreRequest.runQuery (ApiError := ApiError) this q callback
               ((None, Some resp) :: rest) in
           DatastoreRequest.calls events = []
           ∧ DatastoreRequest.throws events
             = [TypeError "Cannot read property 'length' of undefined"])
  end.
Proof.
  intros Hmore Hquery Hlimit Hpos.
  assert (Hgt : (limit >? -1)%Z = true) by (apply Z.gtb_lt; lia).
  destruct (DatastoreRequest.entityResults (DatastoreRequest.batch resp))
    as [results|] eqn:Hresults.
  - destruct (onResponse_notFinished this q orig callback st resp
                queryProto limit results Hmore Hquery Hlimit Hresults)
      as (d & -> & _ & Hsent).
    eexists _, d. split; [reflexivity|]. split; [reflexivity|].
    rewrite Hsent. unfold continuation. by rewrite Hgt.
  - split.
    + unfold DatastoreRequest.onResponse.
      rewrite Hmore, Hquery, Hresults. simpl. by rewrite Hlimit, Hgt.
    + intros Hfirst rest. unfold DatastoreRequest.runQuery. simpl.
      unfold DatastoreRequest.onResponse.
      rewrite Hmore, Hresults. simpl.
      rewrite request_reqOpts_query, runQuery_reqOpts_query.
      by rewrite Hfirst, Hgt.
Qed.

(** Requests are neither callback invocations nor exceptions. *)
Lemma calls_requested (ds : list DatastoreRequest.Dispatch)
  (events : list (DatastoreRequest.Event (Callback := Callback)
                    (ApiError := ApiError))) :
  DatastoreRequest.calls ((DatastoreRequest.Requested <$> ds) ++ events)
  = DatastoreRequest.calls events.
Proof. induction ds as [|d ds IH]; [done|]. exact IH. Qed.

Lemma throws_requested (ds : list DatastoreRequest.Dispatch)
  (events : list (DatastoreRequest.Event (Callback := Callback)
                    (ApiError := ApiError))) :
  DatastoreRequest.throws ((DatastoreRequest.Requested <$> ds) ++ events)
  = DatastoreRequest.throws events.
Proof. induction ds as [|d ds IH]; [done|]. exact IH. Qed.

#[local] Arguments DatastoreRequest.onResponse : simpl never.

(** A run of NOT_FINISHED batches closed by a MORE_RESULTS_AFTER_LIMIT
    batch, from any state whose body holds the wire form of a query. *)
Lemma onResponses_batches this (q : Query.t) (orig : Z) (callback : Callback)
  last (notFinished : list DatastoreRequest.RunQueryResponse) :
  (∀ q', is_Some (limit_value (queryToQueryProto q'))) →
  DatastoreRequest.moreResults (DatastoreRequest.batch last)
  = "MORE_RESULTS_AFTER_LIMIT" →
  Forall (λ r,
            DatastoreRequest.moreResults (DatastoreRequest.batch r)
            = "NOT_FINISHED"
            ∧ is_Some (DatastoreRequest.entityResults
                         (DatastoreRequest.batch r))) notFinished →
  ∀ st,
    (∃ q', DatastoreRequest.query (DatastoreRequest.reqOpts st)
           = Some (queryToQueryProto q')) →
    ∃ ds,
      length ds = length notFinished
      ∧ DatastoreRequest.onResponses (ApiError := ApiError) this q orig
          callback st ((λ r, (None, Some r)) <$> (notFinished ++ [last]))
        = (DatastoreRequest.Requested <$> ds)
            ++ [DatastoreRequest.Called
                  {| DatastoreRequest.run_callback := callback;
                     DatastoreRequest.run_err := None;
                     DatastoreRequest.run_entities :=
                       Some (DatastoreRequest.entities st
                               ++ concat (decoded_entities
                                            <$> (notFinished ++ [last])));
                     DatastoreRequest.run_nextQuery :=
                       Some (if (orig >? -1)%Z
                             then Query.limit orig
                                    (DatastoreRequest.next_query q
                                       (DatastoreRequest.batch last))
                             else DatastoreRequest.next_query q
                                    (DatastoreRequest.batch last));
                     DatastoreRequest.run_apiResponse := Some last |}].
Proof.
  intros Hcodec Hlast.
  induction notFinished as [|r notFinished IH]; intros Hnf st [q' Hquery].
  - exists []. split; [done|]. simpl.
    rewrite onResponse_moreResults by done. by rewrite app_nil_r.
  - inversion Hnf as [|? ? [Hmore [results Hresults]] Hnf']; subst.
    destruct (Hcodec q') as [limit Hlimit].
    destruct (onResponse_notFinished this q orig callback st r _ limit
                results Hmore Hquery Hlimit Hresults)
      as (d & Hstep & _ & Hsent).
    destruct (IH Hnf'
                {| DatastoreRequest.entities :=
                     DatastoreRequest.entities st ++ formatArray results;
                   DatastoreRequest.reqOpts :=
                     DatastoreRequest.dispatch_reqOpts d |})
      as (ds & Hlen & Hrun).
    { simpl. rewrite Hsent. by eexists. }
    exists (d :: ds). split; [simpl; by rewrite Hlen|].
    csimpl. rewrite Hstep, Hrun. csimpl.
    unfold decoded_entities at 2. rewrite Hresults.
    by rewrite <- app_assoc.
Qed.


End RunQuery.

(** ** Properties of the firewall wrapper *)

Section FirewallProperties.
Context {Callback ApiError Json : Type} (json_string : string → Json).

(** C8.  The handlers of [delete] and [setMetadata] behave alike.  On a
    successful reply the callback receives [(null, operation, resp)], where
    the operation is named after [resp.name] and has [resp] as its metadata.
    On a failure it receives [(err, null, resp)]. *)
Theorem firewall_operation_callback (this : Firewall.t)
  (metadata : option (gmap string Json)) (callback : option Callback) :
  Forall (λ handler : option ApiError → option Firewall.FirewallResponse
                      → JsError + Firewall.Args,
            (∀ resp,
               handler None (Some resp)
               = inr {| Firewall.args_callback := callback;
                        Firewall.args_err := None;
                        Firewall.args_operation :=
                          Some {| Firewall.operation_name :=
                                    Firewall.response_name resp;
                                  Firewall.operation_metadata := Some resp |};
                        Firewall.args_apiResponse := Some resp |})
            ∧ (∀ err resp,
                 handler (Some err) resp
                 = inr {| Firewall.args_callback := callback;
                          Firewall.args_err := Some err;
                          Firewall.args_operation := None;
                          Firewall.args_apiResponse := resp |}))
         [ (Firewall.delete this callback).2;
           (Firewall.setMetadata json_string this metadata callback).2 ].
Proof. repeat constructor. Qed.

End FirewallProperties.

(** ** The statements on concrete calls *)

Section Concrete.
#[local] Existing Instance Sample.entity.
#[local] Existing Instance Sample.buffer.


(** A name is none of the listed ones. *)
Ltac not_listed :=
  let Hin := fresh "Hin" in
  intros Hin;
  repeat (apply elem_of_cons in Hin as [Hin|Hin]; [discriminate Hin|]);
  by apply elem_of_nil in Hin.

(** [save] with the methods insert, update and remove. *)
Lemma save_method_witness :
  DatastoreRequest.choose_method (Some "insert") = inr "insert"
  ∧ DatastoreRequest.choose_method (Some "remove")
    = inl (Error "Method remove not recognized.")
  ∧ DatastoreRequest.save Sample.store Sample.client
      (Many [Sample.company 0 None; Sample.company 1 (Some "remove")])
      (Some "cb")
    = inl (Error "Method remove not recognized.")
  ∧ ∃ saved m,
      DatastoreRequest.save Sample.store Sample.client
        (One (Sample.company 1 (Some "update"))) (Some "cb") = inr saved
      ∧ DatastoreRequest.choose_method (Some "update") = inr m
      ∧ produced_mutations saved !! 0
        = Some (entity_mutation Sample.store m
                  (Sample.company 1 (Some "update"))).
Proof.
  destruct (save_method Sample.store Sample.client
              (Many [Sample.company 0 None; Sample.company 1 (Some "remove")])
              (Some "cb"))
    as (Hrecognized & _ & _ & Hrefused & _ & Hthrow).
  destruct (save_method Sample.store Sample.client
              (One (Sample.company 1 (Some "update"))) (Some "cb"))
    as (_ & _ & _ & _ & Hok & _).
  assert (Hremove : DatastoreRequest.choose_method (Some "remove")
                    = inl (Error "Method remove not recognized.")).
  { apply Hrefused; [discriminate|not_listed|not_listed]. }
  split; [apply Hrecognized; apply list_elem_of_here|].
  split; [exact Hremove|]. split.
  - apply (Hthrow [Sample.company 0 None] (Sample.company 1 (Some "remove"))
             []); [reflexivity| |exact Hremove].
    constructor; [by exists "upsert"|constructor].
  - eexists. destruct (Hok _ 0 (Sample.company 1 (Some "update")) eq_refl
                         eq_refl) as (m & Hm & Hmu).
    exists m. split; [reflexivity|]. split; assumption.
Defined.

(** An explicit [method] outside the three that [save] accepts all the same:
    ['constructor'] is found on the prototype of the [methods] literal and
    becomes the method of the mutation, and [''] is falsy and gives upsert. *)
Lemma save_method_counterexample :
  ("constructor" ∉ ["insert"; "update"; "upsert"])
  ∧ ("" ∉ ["insert"; "update"; "upsert"])
  ∧ match DatastoreRequest.save Sample.store Sample.client
            (One (Sample.company 1 (Some "constructor"))) (Some "cb") with
    | inr saved =>
        produced_mutations saved
        = [entity_mutation Sample.store "constructor"
             (Sample.company 1 (Some "constructor"))]
    | inl _ => False
    end
  ∧ match DatastoreRequest.save Sample.store Sample.client
            (One (Sample.company 1 (Some ""))) (Some "cb") with
    | inr saved =>
        produced_mutations saved
        = [entity_mutation Sample.store "upsert"
             (Sample.company 1 (Some ""))]
    | inl _ => False
    end.
Proof.
  split; [not_listed|]. split; [not_listed|].
  vm_compute. split; reflexivity.
Qed.

(** An entity saved with an array-valued and a scalar property, both with
    [excludeFromIndexes: true]: what the commit body holds under the two
    names. *)
Lemma excludeFromIndexes_spec_witness :
  ∃ saved m entityProto,
    DatastoreRequest.save Sample.store Sample.client
      (One (Sample.tagged 0)) (Some "cb") = inr saved
    ∧ produced_mutations saved !! 0
      = Some (DatastoreRequest.MutationEntity m entityProto)
    ∧ DatastoreRequest.properties entityProto !! "tags"
      = Some (DatastoreRequest.encode_entry Sample.tags)
    ∧ DatastoreRequest.properties entityProto !! "rating"
      = Some (DatastoreRequest.encode_entry Sample.rating)
    ∧ (∃ values,
         arrayValue_values (DatastoreRequest.encode_entry Sample.tags)
         = Some values
         ∧ length values = 3
         ∧ Forall (λ v, excludeFromIndexes v = Some true) values)
    ∧ excludeFromIndexes (DatastoreRequest.encode_entry Sample.rating)
      = Some true.
Proof.
  eassert (DatastoreRequest.save Sample.store Sample.client
             (One (Sample.tagged 0)) (Some "cb") = inr _) as Hsave
    by (vm_compute; reflexivity).
  destruct (excludeFromIndexes_spec Sample.store Sample.client
              (One (Sample.tagged 0)) (Some "cb") _ 0 (Sample.tagged 0)
              [Sample.rating; Sample.tags] Hsave eq_refl eq_refl)
    as (m & entityProto & Hmutation & Hmap & _ & Hflagged).
  eexists _, m, entityProto. split; [exact Hsave|].
  split; [exact Hmutation|].
  split; [exact (Hmap "tags")|]. split; [exact (Hmap "rating")|].
  assert (Sample.tags ∈ [Sample.rating; Sample.tags]) as Htags
    by (apply list_elem_of_further, list_elem_of_here).
  assert (Sample.rating ∈ [Sample.rating; Sample.tags]) as Hrating
    by apply list_elem_of_here.
  pose proof (Hflagged Sample.tags true Htags eq_refl) as Harray.
  pose proof (Hflagged Sample.rating true Hrating eq_refl) as Hscalar.
  cbn in Harray, Hscalar.
  destruct Harray as (values & Hvalues & Hlen & Hall & _).
  destruct Hscalar as (Hflag & _).
  split; [|exact Hflag].
  exists values. split; [exact Hvalues|]. split; assumption.
Defined.

(** [delete] and [save] on the transaction ['1234']. *)
Lemma transactional_buffering_witness :
  length (DatastoreRequest.requests_
            (DatastoreRequest.effects_this
               (DatastoreRequest.delete Sample.transaction
                  (One Sample.completeKey) (Some "cb")))) = 1
  ∧ DatastoreRequest.effects_dispatched
      (DatastoreRequest.delete Sample.transaction
         (One Sample.completeKey) (Some "cb")) = []
  ∧ (∃ saved,
       DatastoreRequest.save Sample.store Sample.transaction
         (Many [Sample.company 0 None]) (Some "cb") = inr saved
       ∧ DatastoreRequest.effects_dispatched saved = []
       ∧ length (DatastoreRequest.requests_
                   (DatastoreRequest.effects_this saved)) = 1)
  ∧ ∃ d,
      DatastoreRequest.effects_dispatched
        (DatastoreRequest.delete Sample.client (One Sample.completeKey)
           (Some "cb")) = [d]
      ∧ DatastoreRequest.method (DatastoreRequest.dispatch_protoOpts d)
        = "commit".
Proof.
  destruct (transactional_buffering Sample.store Sample.transaction
              (One Sample.completeKey) (Many [Sample.company 0 None])
              (Some "cb"))
    as (Hdelete & _ & Hsave).
  destruct (Hdelete eq_refl) as (Hdeleted & _ & Hdeleted_len).
  destruct Hsave as (saved & ms & Hsave & _ & Htx & _).
  { constructor; [by exists "upsert"|constructor]. }
  destruct (Htx eq_refl) as (Hsaved & _ & Hsaved_len).
  destruct (transactional_buffering Sample.store Sample.client
              (One Sample.completeKey) (Many [Sample.company 0 None])
              (Some "cb"))
    as (_ & Hsent & _).
  destruct (Hsent eq_refl) as (d & Hd & Hproto & _).
  split; [exact Hdeleted_len|]. split; [exact Hdeleted|]. split.
  - exists saved. split; [exact Hsave|]. split; assumption.
  - exists d. split; [by rewrite Hd|by rewrite Hproto].
Defined.

(** [delete] on the transaction ['1234'], with and without a callback. *)
Lemma transactional_delete_callback_witness :
  DatastoreRequest.requestCallbacks_
    (DatastoreRequest.effects_this
       (DatastoreRequest.delete Sample.transaction (One Sample.completeKey)
          (Some "cb"))) = []
  ∧ DatastoreRequest.delete Sample.transaction (One Sample.completeKey) None
    = DatastoreRequest.delete Sample.transaction (One Sample.completeKey)
        (Some "cb")
  ∧ ∃ saved ix,
      DatastoreRequest.save Sample.store Sample.transaction
        (Many [Sample.company 0 None]) (Some "cb") = inr saved
      ∧ DatastoreRequest.requestCallbacks_
          (DatastoreRequest.effects_this saved)
        = [DatastoreRequest.OnCommit [Sample.company 0 None] ix (Some "cb")].
Proof.
  destruct (transactional_delete_callback Sample.store Sample.transaction
              (One Sample.completeKey) (Many [Sample.company 0 None])
              (Some "cb") eq_refl)
    as (_ & Hcallbacks & _ & Hsame & Hsave).
  destruct Hsave as (saved & ix & body & Hsaved & Hqueued & _).
  { constructor; [by exists "upsert"|constructor]. }
  split; [exact Hcallbacks|]. split; [apply Hsame|].
  exists saved, ix. split; [exact Hsaved|exact Hqueued].
Defined.

(** One entity saved on an incomplete key; the server answers with id 5. *)
Lemma save_writes_generated_id_witness :
  ∃ saved ix,
    DatastoreRequest.save Sample.store Sample.client
      (One (Sample.company 0 None)) (Some "cb") = inr saved
    ∧ Key.id
        ((DatastoreRequest.onCommit (ApiError := string)
            [Sample.company 0 None] ix (Some "cb") Sample.store None
            (Some (Sample.committed [5%Z]))).1 0)
      = Some 5%Z.
Proof.
  eexists.
  destruct (save_writes_generated_id (ApiError := string) Sample.store
              Sample.client (One (Sample.company 0 None)) (Some "cb") _
              eq_refl) as (ix & _ & Hwrite).
  exists ix. split; [reflexivity|].
  apply (Hwrite Sample.store (Sample.committed [5%Z]) 0
           (Sample.company 0 None)
           (Sample.generated 5) (Sample.generatedKey 5));
    try reflexivity.
  intros j e' Hj He'. destruct j; [lia|discriminate He'].
Defined.

(** Two entities saved on one incomplete [Key] object; the server answers
    with the ids 11 and 22.  The object ends with 22, which is not the id
    returned for index 0. *)
Lemma save_shared_key_counterexample :
  let entities := Many [Sample.company 0 None; Sample.company 0 None] in
  isKeyComplete (Sample.store 0) = false
  ∧ Key.id (keyFromKeyProto (Sample.generatedKey 11)) = Some 11%Z
  ∧ match DatastoreRequest.save Sample.store Sample.client entities
            (Some "cb") with
    | inr saved =>
        match DatastoreRequest.dispatch_handler
                <$> DatastoreRequest.effects_dispatched saved with
        | [DatastoreRequest.OnCommit es ix callback] =>
            es = arrify entities
            ∧ Key.id
                ((DatastoreRequest.onCommit (ApiError := string) es ix
                    callback Sample.store None
                    (Some (Sample.committed [11; 22]%Z))).1 0)
              = Some 22%Z
        | _ => False
        end
    | inl _ => False
    end.
Proof. vm_compute. repeat split. Qed.

(** A query with offset 2 and a final batch that skipped one result. *)
Lemma nextQuery_spec_witness :
  ∃ nextQuery,
    Query.startVal nextQuery = Some "cursor"
    ∧ Query.offsetVal nextQuery = 1%Z
    ∧ Query.kinds nextQuery = ["Lion"].
Proof.
  destruct (nextQuery_spec (ApiError := string) Sample.client
              (Sample.lions 5 2) 5 "cb"
              {| DatastoreRequest.entities := [];
                 DatastoreRequest.reqOpts :=
                   DatastoreRequest.runQuery_reqOpts (Sample.lions 5 2) |}
              (Sample.page (Some ["a"]) "MORE_RESULTS_AFTER_LIMIT" "cursor" 1)
              (or_intror eq_refl))
    as (nextQuery & Hstart & Hoffset & _ & _ & Hkinds & _).
  exists nextQuery. split; [exact Hstart|]. split; [exact Hoffset|].
  exact Hkinds.
Defined.

(** The offset of [nextQuery] below zero: a query without offset answered by
    a batch that reports three skipped results, and a query with offset -2
    answered by a batch that skipped none. *)
Lemma nextQuery_offset_counterexample :
  DatastoreRequest.run_nextQuery
    <$> DatastoreRequest.calls
          (DatastoreRequest.runQuery (ApiError := string) Sample.client
             (Sample.lions (-1) (-1)) "cb"
             [(None,
               Some (Sample.page (Some ["a"]) "MORE_RESULTS_AFTER_LIMIT"
                       "cursor" 3))])
  = [Some (Query.offset (-3)
             (Query.start "cursor" (Sample.lions (-1) (-1))))]
  ∧ DatastoreRequest.run_nextQuery
      <$> DatastoreRequest.calls
            (DatastoreRequest.runQuery (ApiError := string) Sample.client
               (Sample.lions (-1) (-2)) "cb"
               [(None,
                 Some (Sample.page (Some ["a"]) "MORE_RESULTS_AFTER_LIMIT"
                         "cursor" 0))])
    = [Some (Query.offset (-2)
               (Query.start "cursor" (Sample.lions (-1) (-2))))]
  ∧ (Query.offsetVal
       (Query.offset (-3) (Query.start "cursor" (Sample.lions (-1) (-1))))
     < 0)%Z
  ∧ (Query.offsetVal
       (Query.offset (-2) (Query.start "cursor" (Sample.lions (-1) (-2))))
     < 0)%Z.
Proof. vm_compute. repeat split. Qed.

(** A limited query whose first reply is NOT_FINISHED without
    [entityResults]. *)
Lemma notFinished_needs_entityResults_witness :
  let events :=
    DatastoreRequest.runQuery (ApiError := string) Sample.client
      (Sample.lions 5 (-1)) "cb"
      [(None, Some (Sample.page None "NOT_FINISHED" "cursor" 0))] in
  DatastoreRequest.calls events = []
  ∧ DatastoreRequest.throws events
    = [TypeError "Cannot read property 'length' of undefined"].
Proof.
  pose proof (notFinished_needs_entityResults (ApiError := string)
                Sample.client (Sample.lions 5 (-1)) 5 "cb"
                {| DatastoreRequest.entities := [];
                   DatastoreRequest.reqOpts :=
                     DatastoreRequest.runQuery_reqOpts
                       (Sample.lions 5 (-1)) |}
                (Sample.page None "NOT_FINISHED" "cursor" 0)
                (Sample.lions 5 (-1)) 5 eq_refl eq_refl eq_refl eq_refl)
    as Hthrown.
  cbn in Hthrown. destruct Hthrown as [_ Hrun].
  exact (Hrun eq_refl []).
Defined.



End Concrete.

(** ** Further properties of the request layer *)

Section Requests.
Context `{EntityModule} `{NodeBuffer} {Callback ApiError : Type}.

Implicit Types (this : DatastoreRequest.Context (Callback := Callback)).
Implicit Types (e entityObject : DatastoreRequest.EntityObject).

(** [request_] leaves the keys of a body alone. *)
Lemma request_reqOpts_keys this protoOpts reqOpts :
  DatastoreRequest.keys
    (DatastoreRequest.request_reqOpts this protoOpts reqOpts)
  = DatastoreRequest.keys reqOpts.
Proof.
  unfold DatastoreRequest.request_reqOpts.
  repeat match goal with
         | |- context [if ?b then _ else _] => destruct b
         end; reflexivity.
Qed.

(** X1.  [request_] changes a body in a way that repeating it does not change
    again: handing the body it produced to [request_] once more, for the
    same method, gives the same body.  It never touches [keys], [mutations],
    [query] or [partitionId], and always stamps the project id of the
    object. *)
Theorem request_idempotent this (protoOpts : DatastoreRequest.ProtoOpts)
  (reqOpts : DatastoreRequest.ReqOpts) :
  let sent := DatastoreRequest.request_reqOpts this protoOpts reqOpts in
  DatastoreRequest.request_reqOpts this protoOpts sent = sent
  ∧ DatastoreRequest.keys sent = DatastoreRequest.keys reqOpts
  ∧ DatastoreRequest.mutations sent = DatastoreRequest.mutations reqOpts
  ∧ DatastoreRequest.query sent = DatastoreRequest.query reqOpts
  ∧ DatastoreRequest.partitionId sent = DatastoreRequest.partitionId reqOpts
  ∧ DatastoreRequest.projectId sent = DatastoreRequest.this_projectId this.
Proof.
  unfold DatastoreRequest.request_reqOpts. destruct reqOpts. simpl.
  destruct (is_defined _), (String.eqb _ "commit"),
    (String.eqb _ "rollback"), (String.eqb _ "lookup"),
    (String.eqb _ "runQuery"); repeat split.
Qed.

(** X2.  The two tests on [this.id] differ: [delete] and [save] queue when
    it is truthy, [request_] marks a commit transactional when it is defined.
    So a commit that [delete] or [save] sends at once is marked
    TRANSACTIONAL, with [this.id] as its transaction, exactly when the id is
    defined though falsy, and NON_TRANSACTIONAL when it is undefined. *)
Theorem dispatched_commit_mode (store : KeyStore) this
  (keys : OneOrMany Key.t)
  (entities : OneOrMany DatastoreRequest.EntityObject)
  (callback : option Callback) :
  truthy (DatastoreRequest.this_id this) = false →
  let marked_as (d : DatastoreRequest.Dispatch) :=
    DatastoreRequest.mode (DatastoreRequest.dispatch_reqOpts d)
    = Some (if is_defined (DatastoreRequest.this_id this)
            then "TRANSACTIONAL" else "NON_TRANSACTIONAL")
    ∧ DatastoreRequest.transaction (DatastoreRequest.dispatch_reqOpts d)
      = DatastoreRequest.this_id this in
  (∃ d, DatastoreRequest.effects_dispatched
          (DatastoreRequest.delete this keys callback) = [d]
        ∧ marked_as d)
  ∧ ∀ saved,
      DatastoreRequest.save store this entities callback = inr saved →
      ∃ d, DatastoreRequest.effects_dispatched saved = [d] ∧ marked_as d.
Proof.
  intros Hid marked_as. subst marked_as.
  assert (Hmark : ∀ reqOpts,
    DatastoreRequest.mode
      (DatastoreRequest.request_reqOpts this
         DatastoreRequest.commit_protoOpts
         (DatastoreRequest.mutations_reqOpts reqOpts))
    = Some (if is_defined (DatastoreRequest.this_id this)
            then "TRANSACTIONAL" else "NON_TRANSACTIONAL")
    ∧ DatastoreRequest.transaction
        (DatastoreRequest.request_reqOpts this
           DatastoreRequest.commit_protoOpts
           (DatastoreRequest.mutations_reqOpts reqOpts))
      = DatastoreRequest.this_id this).
  { intros reqOpts. unfold DatastoreRequest.request_reqOpts. simpl.
    by destruct (DatastoreRequest.this_id this). }
  split.
  - unfold DatastoreRequest.delete. rewrite Hid. eexists.
    split; [reflexivity|]. apply Hmark.
  - intros saved Hsave.
    apply save_inr in Hsave as (ix & ms & _ & ->). rewrite Hid.
    eexists. split; [reflexivity|]. apply Hmark.
Qed.

(** X3.  A count of zero or less does not stop [allocateIds]: for an
    incomplete key it still sends its request, with no key in it. *)
Theorem allocateIds_no_ids this (incompleteKey : Key.t) (n : Z)
  (callback : Callback) :
  isKeyComplete incompleteKey = false → (n ≤ 0)%Z →
  ∃ d,
    DatastoreRequest.allocateIds this incompleteKey n callback = inr d
    ∧ DatastoreRequest.keys (DatastoreRequest.dispatch_reqOpts d) = Some [].
Proof.
  intros Hc Hn. unfold DatastoreRequest.allocateIds. rewrite Hc.
  eexists. split; [reflexivity|].
  unfold DatastoreRequest.request_. simpl.
  rewrite request_reqOpts_keys. simpl. by rewrite Z2Nat.nonpos.
Qed.

(** X4.  [get] on an empty array of keys throws before anything is sent,
    with or without a callback.  Otherwise it hands one [lookup] request to
    the transport, with the wire form of every key in the order given, the
    project id, and, on an object with a defined id, that id as the
    transaction to read in. *)
Theorem get_request this (keys : OneOrMany Key.t) :
  (arrify keys = [] →
   DatastoreRequest.get this keys
   = inl (Error "At least one Key object is required."))
  ∧ (arrify keys ≠ [] →
     ∃ reqOpts,
       DatastoreRequest.get this keys
       = inr ({| DatastoreRequest.service := "Datastore";
                 DatastoreRequest.method := "lookup" |}, reqOpts)
       ∧ DatastoreRequest.keys reqOpts
         = Some (keyToKeyProto <$> arrify keys)
       ∧ DatastoreRequest.projectId reqOpts
         = DatastoreRequest.this_projectId this
       ∧ DatastoreRequest.readOptions reqOpts
         = (if is_defined (DatastoreRequest.this_id this)
            then Some {| DatastoreRequest.readOptions_transaction :=
                           DatastoreRequest.this_id this |}
            else None)
       ∧ DatastoreRequest.mutations reqOpts = None
       ∧ DatastoreRequest.query reqOpts = None
       ∧ DatastoreRequest.mode reqOpts = None
       ∧ DatastoreRequest.transaction reqOpts = None).
Proof.
  unfold DatastoreRequest.get. split.
  - by intros ->.
  - intros Hne. destruct (arrify keys) as [|k ks]; [done|]. simpl.
    eexists. split; [reflexivity|].
    unfold DatastoreRequest.request_reqOpts. simpl.
    destruct (is_defined _); repeat split.
Qed.

(** The mutations of a [save] whose entities all carry the accepted method
    [m]. *)
Lemma save_forced_method (store : KeyStore) this (m : string)
  (es : list DatastoreRequest.EntityObject) (callback : option Callback) :
  DatastoreRequest.choose_method (Some m) = inr m →
  ∃ saved,
    DatastoreRequest.save store this
      (Many (DatastoreRequest.propAssign_method m <$> es)) callback
    = inr saved
    ∧ produced_mutations saved = entity_mutation store m <$> es.
Proof.
  intros Hm.
  destruct (forEach_entities_total store
              (DatastoreRequest.propAssign_method m <$> es) 0 ∅ [])
    as (ix & ms & Hrun).
  { apply list.Forall_forall. intros e (e' & -> & _)%list_elem_of_fmap.
    by exists m. }
  assert (Hsave : ∃ saved,
    DatastoreRequest.save store this
      (Many (DatastoreRequest.propAssign_method m <$> es)) callback
    = inr saved).
  { unfold DatastoreRequest.save. simpl. rewrite Hrun.
    destruct (truthy _); by eexists. }
  destruct Hsave as [saved Hsave]. exists saved. split; [done|].
  rewrite (save_produced_mutations _ _
             (Many (DatastoreRequest.propAssign_method m <$> es))
             _ _ _ _ Hrun Hsave).
  apply forEach_entities_inr in Hrun as (new & -> & Hnew & _). simpl.
  clear Hsave. revert new Hnew.
  induction es as [|e es IH]; intros new Hnew; simpl in Hnew.
  - by inversion Hnew.
  - inversion Hnew as [|? mu ? new' (m' & Hm' & ->) Hrest]; subst.
    change (DatastoreRequest.choose_method (Some m) = inr m') in Hm'.
    rewrite Hm in Hm'. injection Hm' as <-.
    simpl. f_equal. by apply IH.
Qed.

(** X5.  [insert], [update] and [upsert] never throw the unrecognized-method
    error, whatever [method] the entities carry: each of them prepares one
    mutation per entity, in order, under its own method. *)
Theorem forced_method (store : KeyStore) this
  (entities : OneOrMany DatastoreRequest.EntityObject)
  (callback : option Callback) :
  (∃ saved,
     DatastoreRequest.insert store this entities callback = inr saved
     ∧ produced_mutations saved
       = entity_mutation store "insert" <$> arrify entities)
  ∧ (∃ saved,
       DatastoreRequest.update store this entities callback = inr saved
       ∧ produced_mutations saved
         = entity_mutation store "update" <$> arrify entities)
  ∧ (∃ saved,
       DatastoreRequest.upsert store this entities callback = inr saved
       ∧ produced_mutations saved
         = entity_mutation store "upsert" <$> arrify entities).
Proof.
  repeat split; by apply save_forced_method.
Qed.

(** X6.  The explicit property list is folded into an object by assignment,
    so a name given more than once keeps its last entry only: under every
    name but [__proto__] the own properties of the property map are the
    encoding of the last entry of that name, and nothing under a name that
    no entry has.  An entry named [__proto__] leaves no own property, since
    assigning to that name sets the prototype of the map instead. *)
Theorem reduce_entries_last_wins
  (entries : list DatastoreRequest.PropertyEntry) (name : string) :
  DatastoreRequest.reduce_entries entries !! name
  = if decide (name = "__proto__") then None
    else DatastoreRequest.encode_entry
           <$> list.last
                 (filter (λ data, DatastoreRequest.entry_name data = name)
                         entries).
Proof.
  unfold DatastoreRequest.reduce_entries.
  induction entries as [|data entries IH] using rev_ind.
  - cbn [foldl]. rewrite lookup_empty. by case_decide.
  - rewrite foldl_app, list.filter_app. cbn [foldl].
    unfold assign_own at 1.
    destruct (String.eqb_spec (DatastoreRequest.entry_name data) "__proto__")
      as [Hproto|Hproto].
    + rewrite IH. case_decide as Hname; [done|].
      rewrite (filter_cons_False _ data []) by congruence.
      by rewrite filter_nil, app_nil_r.
    + destruct (decide (DatastoreRequest.entry_name data = name))
        as [Heq|Hne].
      * rewrite Heq, lookup_insert_eq.
        rewrite decide_False by congruence.
        rewrite (filter_cons_True _ data []) by done.
        by rewrite filter_nil, last_snoc.
      * rewrite lookup_insert_ne by done. rewrite IH.
        rewrite (filter_cons_False _ data []) by done.
        by rewrite filter_nil, app_nil_r.
Qed.

(** X7.  The mutations that [delete] and [save] prepare do not depend on the
    object they are called on, nor on the callback: queued in a transaction
    or sent at once, [delete] prepares one delete mutation per key in the
    order given, and two calls of [save] on the same entities either throw
    the same error or prepare the same mutations. *)
Theorem mutations_independent_of_context (store : KeyStore) this
  (this' : DatastoreRequest.Context (Callback := Callback))
  (keys : OneOrMany Key.t)
  (entities : OneOrMany DatastoreRequest.EntityObject)
  (callback callback' : option Callback) :
  produced_mutations (DatastoreRequest.delete this keys callback)
  = (λ k, DatastoreRequest.MutationDelete (keyToKeyProto k)) <$> arrify keys
  ∧ match DatastoreRequest.save store this entities callback,
          DatastoreRequest.save store this' entities callback' with
    | inr saved, inr saved' =>
        produced_mutations saved = produced_mutations saved'
    | inl thrown, inl thrown' => thrown = thrown'
    | _, _ => False
    end.
Proof.
  split.
  - unfold produced_mutations, produced_reqOpts, DatastoreRequest.delete.
    destruct (truthy _); simpl.
    + by rewrite last_snoc.
    + by rewrite request_reqOpts_mutations.
  - destruct (DatastoreRequest.save store this entities callback)
      as [thrown|saved] eqn:Hsave;
      destruct (DatastoreRequest.save store this' entities callback')
        as [thrown'|saved'] eqn:Hsave'.
    + unfold DatastoreRequest.save in Hsave, Hsave'.
      destruct (DatastoreRequest.forEach_entities _ _ _ _) as [err|[ix ms]].
      * congruence.
      * by destruct (truthy (DatastoreRequest.this_id this)).
    + apply save_inr in Hsave' as (ix & ms & Hrun & _).
      unfold DatastoreRequest.save in Hsave. rewrite Hrun in Hsave.
      by destruct (truthy _).
    + apply save_inr in Hsave as (ix & ms & Hrun & _).
      unfold DatastoreRequest.save in Hsave'. rewrite Hrun in Hsave'.
      by destruct (truthy _).
    + destruct (save_inr _ _ _ _ _ Hsave) as (ix & ms & Hrun & _).
      rewrite (save_produced_mutations _ _ _ _ _ _ _ Hrun Hsave).
      by rewrite (save_produced_mutations _ _ _ _ _ _ _ Hrun Hsave').
Qed.

End Requests.

(** ** Further properties of the commit reply and of call sequences *)

Section Commits.
Context `{EntityModule} `{NodeBuffer} {Callback ApiError : Type}.

Implicit Types (this : DatastoreRequest.Context (Callback := Callback)).
Implicit Types (e entityObject : DatastoreRequest.EntityObject).
Implicit Types (ix insertIndexes : gmap nat bool).

(** The loop over the results leaves alone every [Key] object that none of
    its writes goes to. *)
Lemma forEach_results_untouched (es : list DatastoreRequest.EntityObject) ix
  (l : nat) (results : list DatastoreRequest.MutationResult) :
  ∀ idx (store : KeyStore),
    (∀ k result keyProto e,
       results !! k = Some result →
       DatastoreRequest.result_key result = Some keyProto →
       DatastoreRequest.marked ix (idx + k) = true →
       es !! (idx + k) = Some e →
       DatastoreRequest.entity_key e ≠ l) →
    (DatastoreRequest.forEach_results es ix idx results store).1 l = store l.
Proof.
  induction results as [|result results IH]; intros idx store Hfree; simpl.
  - done.
  - assert (Hnext : ∀ k result' keyProto e,
              results !! k = Some result' →
              DatastoreRequest.result_key result' = Some keyProto →
              DatastoreRequest.marked ix (S idx + k) = true →
              es !! (S idx + k) = Some e →
              DatastoreRequest.entity_key e ≠ l).
    { intros k result' keyProto e Hk Hkey Hm He.
      apply (Hfree (S k) result' keyProto e); try done.
      - by replace (idx + S k) with (S idx + k) by lia.
      - by replace (idx + S k) with (S idx + k) by lia. }
    destruct (DatastoreRequest.result_key result) as [keyProto|] eqn:Hkey;
      [|by apply IH].
    destruct (DatastoreRequest.marked ix idx) eqn:Hm; [|by apply IH].
    destruct (es !! idx) as [e|] eqn:He; [|done].
    rewrite IH by done.
    apply fn_lookup_alter_ne.
    apply (Hfree 0 result keyProto e); try done.
    + by replace (idx + 0) with idx by lia.
    + by replace (idx + 0) with idx by lia.
Qed.

(** X8.  [onCommit] writes to no [Key] object but those of the entities
    whose key was incomplete when [save] ran: a [Key] object is left exactly
    as it was when every entity of the call that refers to it had a complete
    key at that time, whatever the reply holds for those entities, and so is
    every [Key] object when the reply is an error or carries no response. *)
Theorem onCommit_leaves_complete_keys (store : KeyStore) this
  (entities : OneOrMany DatastoreRequest.EntityObject)
  (callback : option Callback) (saved : DatastoreRequest.Effects) :
  DatastoreRequest.save store this entities callback = inr saved →
  ∃ ix,
    (if truthy (DatastoreRequest.this_id this)
     then DatastoreRequest.requestCallbacks_
            (DatastoreRequest.effects_this saved)
          = DatastoreRequest.requestCallbacks_ this
              ++ [DatastoreRequest.OnCommit (arrify entities) ix callback]
     else DatastoreRequest.dispatch_handler
            <$> DatastoreRequest.effects_dispatched saved
          = [DatastoreRequest.OnCommit (arrify entities) ix callback])
    ∧ ∀ (store' : KeyStore) (err : option ApiError)
        (resp : option DatastoreRequest.CommitResponse) (l : nat),
        let after :=
          (DatastoreRequest.onCommit (arrify entities) ix callback store'
             err resp).1 in
        ((∀ e, e ∈ arrify entities →
               DatastoreRequest.entity_key e = l →
               isKeyComplete (store l) = true) →
         after l = store' l)
        ∧ (is_Some err ∨ resp = None → after l = store' l).
Proof.
  intros Hsave.
  apply save_inr in Hsave as (ix & ms & Hrun & ->).
  exists ix. split.
  { destruct (truthy _); reflexivity. }
  intros store' err resp l. simpl.
  pose proof (forEach_entities_marks _ _ _ _ Hrun) as Hmarks.
  unfold DatastoreRequest.onCommit.
  destruct err as [err|]; [by repeat split|].
  destruct resp as [resp|]; [|by repeat split].
  pose proof (forEach_results_untouched (arrify entities) ix l
                (arrify_field (DatastoreRequest.mutationResults resp))
                0 store') as Hframe.
  destruct (DatastoreRequest.forEach_results _ _ _ _ _)
    as [store'' thrown].
  simpl in Hframe.
  assert (Hgoal :
    ((∀ e, e ∈ arrify entities →
           DatastoreRequest.entity_key e = l →
           isKeyComplete (store l) = true) →
     store'' l = store' l)
    ∧ (is_Some (@None ApiError) ∨ Some resp = None → store'' l = store' l)).
  { split.
    - intros Hcomplete. apply Hframe.
      intros k result keyProto e _ _ Hm He Hl.
      apply Hmarks in Hm as (e' & He' & Hincomplete).
      rewrite He in He'. injection He' as <-.
      assert (Hin : e ∈ arrify entities).
      { apply list_elem_of_lookup. by exists k. }
      rewrite Hl, (Hcomplete e Hin Hl) in Hincomplete. done.
    - intros [[? [=]]|[=]]. }
  by destruct thrown.
Qed.

(** The write for index [i] is the last word on entity [i]'s key when no
    later result that carries a key belongs to an entity on the same [Key]
    object. *)
Lemma forEach_results_last_write (es : list DatastoreRequest.EntityObject)
  ix (i : nat) e (keyProto : KeyProto) :
  (∀ j, DatastoreRequest.marked ix j = true → is_Some (es !! j)) →
  DatastoreRequest.marked ix i = true →
  es !! i = Some e →
  ∀ (results : list DatastoreRequest.MutationResult) idx (store : KeyStore)
    result,
    idx ≤ i →
    results !! (i - idx) = Some result →
    DatastoreRequest.result_key result = Some keyProto →
    (∀ j e' result' keyProto',
       i < j → es !! j = Some e' →
       results !! (j - idx) = Some result' →
       DatastoreRequest.result_key result' = Some keyProto' →
       DatastoreRequest.entity_key e' ≠ DatastoreRequest.entity_key e) →
    Key.id ((DatastoreRequest.forEach_results es ix idx results store).1
              (DatastoreRequest.entity_key e))
    = Key.id (keyFromKeyProto keyProto).
Proof.
  intros Hmarks Hi He.
  induction results as [|r results IH];
    intros idx store result Hle Hres Hkey Hlater; [done|].
  assert (Hlater' : ∀ j e' result' keyProto',
            i < j → es !! j = Some e' →
            results !! (j - S idx) = Some result' →
            DatastoreRequest.result_key result' = Some keyProto' →
            DatastoreRequest.entity_key e'
            ≠ DatastoreRequest.entity_key e).
  { intros j e' result' keyProto' Hj He' Hres' Hkey'.
    apply (Hlater j e' result' keyProto'); try done.
    by replace (j - idx) with (S (j - S idx)) by lia. }
  destruct (decide (idx = i)) as [->|Hne].
  - replace (i - i) with 0 in Hres by lia. injection Hres as ->.
    simpl. rewrite Hkey, Hi, He.
    rewrite forEach_results_untouched.
    + by rewrite fn_lookup_alter.
    + intros k result' keyProto' e' Hk Hkey' _ He'.
      apply (Hlater' (S i + k) e' result' keyProto'); try done; [lia|].
      by replace (S i + k - S i) with k by lia.
  - replace (i - idx) with (S (i - S idx)) in Hres by lia. simpl in Hres.
    simpl.
    destruct (DatastoreRequest.result_key r) as [keyProto'|].
    + destruct (DatastoreRequest.marked ix idx) eqn:Hm.
      * destruct (Hmarks _ Hm) as [e' ->].
        eapply IH; [lia|done..].
      * eapply IH; [lia|done..].
    + eapply IH; [lia|done..].
Qed.

(** X9.  When several entities of one [save] refer to the same [Key] object,
    the last write wins: the object ends with the id generated for an entity
    saved with an incomplete key whenever every later entity on the same
    object gets a result without a key, or none at all. *)
Theorem onCommit_last_write_wins (store : KeyStore) this
  (entities : OneOrMany DatastoreRequest.EntityObject)
  (callback : option Callback) (saved : DatastoreRequest.Effects) :
  DatastoreRequest.save store this entities callback = inr saved →
  ∃ ix,
    (if truthy (DatastoreRequest.this_id this)
     then DatastoreRequest.requestCallbacks_
            (DatastoreRequest.effects_this saved)
          = DatastoreRequest.requestCallbacks_ this
              ++ [DatastoreRequest.OnCommit (arrify entities) ix callback]
     else DatastoreRequest.dispatch_handler
            <$> DatastoreRequest.effects_dispatched saved
          = [DatastoreRequest.OnCommit (arrify entities) ix callback])
    ∧ ∀ (store' : KeyStore) (resp : DatastoreRequest.CommitResponse)
        i e result keyProto,
        arrify entities !! i = Some e →
        isKeyComplete (store (DatastoreRequest.entity_key e)) = false →
        arrify_field (DatastoreRequest.mutationResults resp) !! i
        = Some result →
        DatastoreRequest.result_key result = Some keyProto →
        (∀ j e' result',
           i < j → arrify entities !! j = Some e' →
           DatastoreRequest.entity_key e' = DatastoreRequest.entity_key e →
           arrify_field (DatastoreRequest.mutationResults resp) !! j
           = Some result' →
           DatastoreRequest.result_key result' = None) →
        Key.id
          ((DatastoreRequest.onCommit (ApiError := ApiError)
              (arrify entities) ix callback store' None (Some resp)).1
             (DatastoreRequest.entity_key e))
        = Key.id (keyFromKeyProto keyProto).
Proof.
  intros Hsave.
  apply save_inr in Hsave as (ix & ms & Hrun & ->).
  exists ix. split.
  { destruct (truthy _); reflexivity. }
  intros store' resp i e result keyProto He Hincomplete Hres Hkey Hlater.
  pose proof (forEach_entities_marks _ _ _ _ Hrun) as Hmarks.
  assert (Hvalid : ∀ j, DatastoreRequest.marked ix j = true →
                        is_Some (arrify entities !! j)).
  { intros j [e' [He' _]]%Hmarks. by exists e'. }
  assert (Hi : DatastoreRequest.marked ix i = true).
  { apply Hmarks. by exists e. }
  unfold DatastoreRequest.onCommit.
  pose proof (forEach_results_last_write (arrify entities) ix i e keyProto
                Hvalid Hi He
                (arrify_field (DatastoreRequest.mutationResults resp))
                0 store' result) as Hhit.
  destruct (DatastoreRequest.forEach_results _ _ _ _ _) as [store'' thrown].
  simpl in Hhit.
  assert (Hid : Key.id (store'' (DatastoreRequest.entity_key e))
                = Key.id (keyFromKeyProto keyProto)).
  { apply Hhit; [lia|by replace (i - 0) with i by lia|done|].
    intros j e' result' keyProto' Hj He' Hres' Hkey' Hsame.
    replace (j - 0) with j in Hres' by lia.
    rewrite (Hlater j e' result' Hj He' Hsame Hres') in Hkey'. done. }
  by destruct thrown.
Qed.

(** What one call that returns leaves behind. *)
Lemma call_effects (store : KeyStore) this (c : Call)
  (eff : DatastoreRequest.Effects) :
  call store this c = inr eff →
  if truthy (DatastoreRequest.this_id this) then
    DatastoreRequest.effects_dispatched eff = []
    ∧ ∃ body hs,
        DatastoreRequest.effects_this eff
        = {| DatastoreRequest.this_id := DatastoreRequest.this_id this;
             DatastoreRequest.this_projectId :=
               DatastoreRequest.this_projectId this;
             DatastoreRequest.requests_ :=
               DatastoreRequest.requests_ this ++ [body];
             DatastoreRequest.requestCallbacks_ :=
               DatastoreRequest.requestCallbacks_ this ++ hs |}
        ∧ length hs = count_saves [c]
  else
    DatastoreRequest.effects_this eff = this
    ∧ ∃ d, DatastoreRequest.effects_dispatched eff = [d].
Proof.
  destruct c as [entities callback|keys callback]; simpl.
  - intros Hsave. apply save_inr in Hsave as (ix & ms & _ & ->).
    destruct (truthy _); simpl.
    + split; [done|]. by eexists _, [_].
    + split; [done|]. by eexists.
  - intros [= <-]. unfold DatastoreRequest.delete.
    destruct (truthy _); simpl.
    + split; [done|]. eexists _, []. by rewrite app_nil_r.
    + split; [done|]. by eexists.
Qed.

(** A call that is accepted returns. *)
Lemma call_accepted_returns (store : KeyStore) this (c : Call) :
  call_accepted c → ∃ eff, call store this c = inr eff.
Proof.
  destruct c as [entities callback|keys callback]; simpl.
  - intros Hok.
    destruct (forEach_entities_total store (arrify entities) 0 ∅ [] Hok)
      as (ix & ms & Hrun).
    unfold DatastoreRequest.save. rewrite Hrun.
    destruct (truthy _); by eexists.
  - intros _. by eexists.
Qed.

(** A sequence of calls on an object with a truthy id. *)
Lemma calls_in_order_transaction (store : KeyStore) (cs : list Call) :
  ∀ this,
    truthy (DatastoreRequest.this_id this) = true →
    ∃ bodies hs,
      (calls_in_order store this cs).1
      = {| DatastoreRequest.effects_this :=
             {| DatastoreRequest.this_id := DatastoreRequest.this_id this;
                DatastoreRequest.this_projectId :=
                  DatastoreRequest.this_projectId this;
                DatastoreRequest.requests_ :=
                  DatastoreRequest.requests_ this ++ bodies;
                DatastoreRequest.requestCallbacks_ :=
                  DatastoreRequest.requestCallbacks_ this ++ hs |};
           DatastoreRequest.effects_dispatched := [] |}
      ∧ (Forall call_accepted cs →
         (calls_in_order store this cs).2 = None
         ∧ length bodies = length cs
         ∧ length hs = count_saves cs).
Proof.
  induction cs as [|c cs IH]; intros this Hid; simpl.
  - exists [], []. rewrite !app_nil_r. by destruct this.
  - destruct (call store this c) as [thrown|eff] eqn:Hcall.
    + exists [], []. rewrite !app_nil_r. split; [by destruct this|].
      intros Hok. inversion Hok as [|? ? Hc _]; subst.
      destruct (call_accepted_returns store this c Hc) as [eff Heff].
      congruence.
    + pose proof (call_effects store this c eff Hcall) as Heff.
      rewrite Hid in Heff.
      destruct Heff as (Hnone & body & hs & Hthis & Hhs).
      destruct (IH (DatastoreRequest.effects_this eff))
        as (bodies & hs' & Hrest & Hcounts).
      { by rewrite Hthis. }
      destruct (calls_in_order store (DatastoreRequest.effects_this eff) cs)
        as [eff' thrown] eqn:Hrun.
      simpl in Hrest, Hcounts. subst eff'. simpl.
      exists (body :: bodies), (hs ++ hs').
      rewrite Hnone, Hthis. simpl. rewrite <- !app_assoc. simpl.
      split; [done|].
      intros Hok. inversion Hok as [|? ? Hc Hcs]; subst.
      destruct (Hcounts Hcs) as (-> & Hbodies & Hhs').
      split; [done|]. split; [simpl; by rewrite Hbodies|].
      rewrite length_app, Hhs, Hhs'. simpl.
      destruct c; simpl; lia.
Qed.

(** A sequence of calls on an object with a falsy id. *)
Lemma calls_in_order_direct (store : KeyStore) (cs : list Call) :
  ∀ this,
    truthy (DatastoreRequest.this_id this) = false →
    DatastoreRequest.effects_this (calls_in_order store this cs).1 = this
    ∧ length (DatastoreRequest.effects_dispatched
                (calls_in_order store this cs).1) ≤ length cs.
Proof.
  induction cs as [|c cs IH]; intros this Hid; simpl.
  - done.
  - destruct (call store this c) as [thrown|eff] eqn:Hcall.
    + simpl. split; [done|lia].
    + pose proof (call_effects store this c eff Hcall) as Heff.
      rewrite Hid in Heff. destruct Heff as (Hthis & d & Hd).
      rewrite Hthis. destruct (IH this Hid) as (Hsame & Hlen).
      destruct (calls_in_order store this cs) as [eff' thrown].
      simpl in *. rewrite Hd. simpl. split; [done|lia].
Qed.

(** X10.  Calls of [save] and [delete], in any number and order, never
    change the id or the project id of the object and only ever append to
    its two queues.  On an object with a truthy id they send nothing; on any
    other object they leave both queues as they are and send at most one
    request per call. *)
Theorem calls_append_only (store : KeyStore) this (cs : list Call) :
  let after := (calls_in_order store this cs).1 in
  let this' := DatastoreRequest.effects_this after in
  DatastoreRequest.this_id this' = DatastoreRequest.this_id this
  ∧ DatastoreRequest.this_projectId this'
    = DatastoreRequest.this_projectId this
  ∧ DatastoreRequest.requests_ this
      `prefix_of` DatastoreRequest.requests_ this'
  ∧ DatastoreRequest.requestCallbacks_ this
      `prefix_of` DatastoreRequest.requestCallbacks_ this'
  ∧ (truthy (DatastoreRequest.this_id this) = true →
     DatastoreRequest.effects_dispatched after = [])
  ∧ (truthy (DatastoreRequest.this_id this) = false →
     this' = this
     ∧ length (DatastoreRequest.effects_dispatched after) ≤ length cs).
Proof.
  intros after this'. subst this' after.
  destruct (truthy (DatastoreRequest.this_id this)) eqn:Hid.
  - destruct (calls_in_order_transaction store cs this Hid)
      as (bodies & hs & -> & _). simpl.
    repeat split; try done; by eexists.
  - destruct (calls_in_order_direct store cs this Hid) as (-> & Hlen).
    repeat split; done.
Qed.

(** X11.  On an object with a truthy id, a sequence of calls none of which
    throws sends nothing and queues one body per call, but one callback per
    [save] only: after [n] calls of which [k] are saves, [requests_] is [n]
    longer and [requestCallbacks_] is [k] longer. *)
Theorem transaction_queue_counts (store : KeyStore) this (cs : list Call) :
  truthy (DatastoreRequest.this_id this) = true →
  Forall call_accepted cs →
  let after := calls_in_order store this cs in
  after.2 = None
  ∧ DatastoreRequest.effects_dispatched after.1 = []
  ∧ length (DatastoreRequest.requests_
              (DatastoreRequest.effects_this after.1))
    = length (DatastoreRequest.requests_ this) + length cs
  ∧ length (DatastoreRequest.requestCallbacks_
              (DatastoreRequest.effects_this after.1))
    = length (DatastoreRequest.requestCallbacks_ this) + count_saves cs.
Proof.
  intros Hid Hok after. subst after.
  destruct (calls_in_order_transaction store cs this Hid)
    as (bodies & hs & Hafter & Hcounts).
  destruct (Hcounts Hok) as (Hnone & Hbodies & Hhs).
  rewrite Hafter, Hnone. simpl. rewrite !length_app, Hbodies, Hhs. done.
Qed.

End Commits.

(** ** Further properties of [runQuery] *)

Section Queries.
Context `{EntityModule} `{NodeBuffer} {Callback ApiError : Type}.

Implicit Types (this : DatastoreRequest.Context (Callback := Callback)).
Implicit Types (st : DatastoreRequest.RunState).
Implicit Types (resp last : DatastoreRequest.RunQueryResponse).

#[local] Arguments DatastoreRequest.onResponse : simpl never.

(** NOT_FINISHED batches that carry their results, followed by any
    replies: one request goes out per batch, the entities are kept, and the
    remaining replies meet a state whose body holds the wire form of a
    query. *)
Lemma onResponses_not_finished this (q : Query.t) (orig : Z)
  (callback : Callback)
  (notFinished : list DatastoreRequest.RunQueryResponse)
  (rest : list (option ApiError * option DatastoreRequest.RunQueryResponse)) :
  (∀ q', is_Some (limit_value (queryToQueryProto q'))) →
  Forall (λ r,
            DatastoreRequest.moreResults (DatastoreRequest.batch r)
            = "NOT_FINISHED"
            ∧ is_Some (DatastoreRequest.entityResults
                         (DatastoreRequest.batch r))) notFinished →
  ∀ st,
    (∃ q', DatastoreRequest.query (DatastoreRequest.reqOpts st)
           = Some (queryToQueryProto q')) →
    ∃ ds st',
      length ds = length notFinished
      ∧ DatastoreRequest.onResponses this q orig callback st
          (((λ r, (None, Some r)) <$> notFinished) ++ rest)
        = (DatastoreRequest.Requested <$> ds)
            ++ DatastoreRequest.onResponses this q orig callback st' rest
      ∧ DatastoreRequest.entities st'
        = DatastoreRequest.entities st
            ++ concat (decoded_entities <$> notFinished)
      ∧ ∃ q', DatastoreRequest.query (DatastoreRequest.reqOpts st')
              = Some (queryToQueryProto q').
Proof.
  intros Hcodec.
  induction notFinished as [|r notFinished IH]; intros Hnf st Hquery.
  - exists [], st. simpl. by rewrite app_nil_r.
  - destruct Hquery as [q' Hquery].
    inversion Hnf as [|? ? [Hmore [results Hresults]] Hnf']; subst.
    destruct (Hcodec q') as [limit Hlimit].
    destruct (onResponse_notFinished (ApiError := ApiError) this q orig callback st r _ limit
                results Hmore Hquery Hlimit Hresults)
      as (d & Hstep & _ & Hsent).
    destruct (IH Hnf'
                {| DatastoreRequest.entities :=
                     DatastoreRequest.entities st ++ formatArray results;
                   DatastoreRequest.reqOpts :=
                     DatastoreRequest.dispatch_reqOpts d |})
      as (ds & st' & Hlen & Hrun & Hentities & Hquery').
    { simpl. rewrite Hsent. by eexists. }
    exists (d :: ds), st'. split; [simpl; by rewrite Hlen|].
    split; [|split; [|done]].
    + csimpl. by rewrite Hstep, Hrun.
    + rewrite Hentities. csimpl.
      unfold decoded_entities at 2. rewrite Hresults.
      by rewrite <- app_assoc.
Qed.

(** The state in which the first reply of a [runQuery] is met. *)
Lemma runQuery_first_state this (q : Query.t) (callback : Callback) :
  ∃ q',
    DatastoreRequest.query
      (DatastoreRequest.dispatch_reqOpts
         (DatastoreRequest.request_ this DatastoreRequest.runQuery_protoOpts
            (DatastoreRequest.runQuery_reqOpts q)
            (DatastoreRequest.OnResponse q callback)))
    = Some (queryToQueryProto q').
Proof.
  exists q. unfold DatastoreRequest.request_. simpl.
  by rewrite request_reqOpts_query, runQuery_reqOpts_query.
Qed.

(** X12.  A failure of the transport ends [runQuery] as a whole: after any
    number of NOT_FINISHED batches, an error reply makes the callback receive
    [(err, null, null, resp)] once, and the entities gathered from the
    earlier batches are not handed over. *)
Theorem runQuery_error_discards this (q : Query.t) (callback : Callback)
  (notFinished : list DatastoreRequest.RunQueryResponse)
  (err : ApiError) (resp : option DatastoreRequest.RunQueryResponse) :
  (∀ q', is_Some (limit_value (queryToQueryProto q'))) →
  Forall (λ r,
            DatastoreRequest.moreResults (DatastoreRequest.batch r)
            = "NOT_FINISHED"
            ∧ is_Some (DatastoreRequest.entityResults
                         (DatastoreRequest.batch r))) notFinished →
  let events :=
    DatastoreRequest.runQuery this q callback
      (((λ r, (None, Some r)) <$> notFinished) ++ [(Some err, resp)]) in
  DatastoreRequest.calls events
  = [{| DatastoreRequest.run_callback := callback;
        DatastoreRequest.run_err := Some err;
        DatastoreRequest.run_entities := None;
        DatastoreRequest.run_nextQuery := None;
        DatastoreRequest.run_apiResponse := resp |}]
  ∧ DatastoreRequest.throws events = []
  ∧ length events = S (S (length notFinished)).
Proof.
  intros Hcodec Hnf events. subst events.
  unfold DatastoreRequest.runQuery. cbv zeta.
  destruct (onResponses_not_finished this q (Query.limitVal q) callback
              notFinished [(Some err, resp)] Hcodec Hnf
              {| DatastoreRequest.entities := [];
                 DatastoreRequest.reqOpts :=
                   DatastoreRequest.dispatch_reqOpts
                     (DatastoreRequest.request_ this
                        DatastoreRequest.runQuery_protoOpts
                        (DatastoreRequest.runQuery_reqOpts q)
                        (DatastoreRequest.OnResponse q callback)) |}
              (runQuery_first_state this q callback))
    as (ds & st' & Hlen & -> & _).
  change (DatastoreRequest.Requested ?d :: ?l ++ ?r)
    with ((DatastoreRequest.Requested <$> d :: ds) ++ r).
  rewrite calls_requested, throws_requested.
  split; [done|]. split; [done|].
  rewrite length_app, length_fmap. simpl. rewrite Hlen. lia.
Qed.

(** A batch that reports neither NOT_FINISHED nor MORE_RESULTS_AFTER_LIMIT
    ends the call without a continuation query. *)
Lemma onResponse_finished this (q : Query.t) (orig : Z)
  (callback : Callback) st resp :
  DatastoreRequest.moreResults (DatastoreRequest.batch resp)
  ≠ "NOT_FINISHED" →
  DatastoreRequest.moreResults (DatastoreRequest.batch resp)
  ≠ "MORE_RESULTS_AFTER_LIMIT" →
  DatastoreRequest.onResponse (ApiError := ApiError) this q orig callback
    st None (Some resp)
  = DatastoreRequest.Return
      {| DatastoreRequest.run_callback := callback;
         DatastoreRequest.run_err := None;
         DatastoreRequest.run_entities :=
           Some (DatastoreRequest.entities st ++ decoded_entities resp);
         DatastoreRequest.run_nextQuery := None;
         DatastoreRequest.run_apiResponse := Some resp |}.
Proof.
  intros Hnf Hmore. unfold DatastoreRequest.onResponse, decoded_entities.
  apply String.eqb_neq in Hnf, Hmore. rewrite Hnf, Hmore. simpl.
  destruct (DatastoreRequest.entityResults _); by rewrite ?app_nil_r.
Qed.

(** X13.  When the last batch reports anything but NOT_FINISHED or
    MORE_RESULTS_AFTER_LIMIT, the callback receives the decoded entities of
    all batches, in order, and no [nextQuery]: nothing invites the caller to
    ask again. *)
Theorem runQuery_no_more_results this (q : Query.t) (callback : Callback)
  (notFinished : list DatastoreRequest.RunQueryResponse) last :
  (∀ q', is_Some (limit_value (queryToQueryProto q'))) →
  Forall (λ r,
            DatastoreRequest.moreResults (DatastoreRequest.batch r)
            = "NOT_FINISHED"
            ∧ is_Some (DatastoreRequest.entityResults
                         (DatastoreRequest.batch r))) notFinished →
  DatastoreRequest.moreResults (DatastoreRequest.batch last)
  ≠ "NOT_FINISHED" →
  DatastoreRequest.moreResults (DatastoreRequest.batch last)
  ≠ "MORE_RESULTS_AFTER_LIMIT" →
  let events :=
    DatastoreRequest.runQuery (ApiError := ApiError) this q callback
      (((λ r, (None, Some r)) <$> notFinished) ++ [(None, Some last)]) in
  DatastoreRequest.calls events
  = [{| DatastoreRequest.run_callback := callback;
        DatastoreRequest.run_err := None;
        DatastoreRequest.run_entities :=
          Some (concat (decoded_entities <$> (notFinished ++ [last])));
        DatastoreRequest.run_nextQuery := None;
        DatastoreRequest.run_apiResponse := Some last |}]
  ∧ DatastoreRequest.throws events = [].
Proof.
  intros Hcodec Hnf Hlast Hlast' events. subst events.
  unfold DatastoreRequest.runQuery. cbv zeta.
  destruct (onResponses_not_finished this q (Query.limitVal q) callback
              notFinished [(None, Some last)] Hcodec Hnf
              {| DatastoreRequest.entities := [];
                 DatastoreRequest.reqOpts :=
                   DatastoreRequest.dispatch_reqOpts
                     (DatastoreRequest.request_ this
                        DatastoreRequest.runQuery_protoOpts
                        (DatastoreRequest.runQuery_reqOpts q)
                        (DatastoreRequest.OnResponse q callback)) |}
              (runQuery_first_state this q callback))
    as (ds & st' & Hlen & -> & Hentities & _).
  change (DatastoreRequest.Requested ?d :: ?l ++ ?r)
    with ((DatastoreRequest.Requested <$> d :: ds) ++ r).
  rewrite calls_requested, throws_requested.
  simpl. rewrite onResponse_finished by done.
  rewrite Hentities. simpl.
  rewrite fmap_app, concat_app. simpl. by rewrite app_nil_r.
Qed.

(** What [onResponse] can do: ask again with the body of the state, in
    which only the query is new, or call the callback it was given, or
    throw. *)
Lemma onResponse_cases this (q : Query.t) (orig : Z) (callback : Callback)
  st (err : option ApiError)
  (resp : option DatastoreRequest.RunQueryResponse) :
  match DatastoreRequest.onResponse this q orig callback st err resp with
  | DatastoreRequest.Reissue st' d =>
      ∃ queryProto,
        d = DatastoreRequest.request_ this DatastoreRequest.runQuery_protoOpts
              (DatastoreRequest.set_query queryProto
                 (DatastoreRequest.reqOpts st))
              (DatastoreRequest.OnResponse q callback)
        ∧ DatastoreRequest.reqOpts st' = DatastoreRequest.dispatch_reqOpts d
  | DatastoreRequest.Return args =>
      DatastoreRequest.run_callback args = callback
  | DatastoreRequest.Throw _ => True
  end.
Proof.
  unfold DatastoreRequest.onResponse.
  repeat case_match; simplify_eq; try done; by eexists.
Qed.

(** The body of the first request of a [runQuery], and what every later
    body shares with it. *)
Lemma runQuery_body_fields this (q : Query.t)
  (queryProto : QueryProto) :
  let body :=
    DatastoreRequest.set_query queryProto
      (DatastoreRequest.request_reqOpts this
         DatastoreRequest.runQuery_protoOpts
         (DatastoreRequest.runQuery_reqOpts q)) in
  DatastoreRequest.request_reqOpts this DatastoreRequest.runQuery_protoOpts
    body = body
  ∧ DatastoreRequest.projectId body = DatastoreRequest.this_projectId this
  ∧ DatastoreRequest.readOptions body
    = Some {| DatastoreRequest.readOptions_transaction :=
                DatastoreRequest.this_id this |}
  ∧ DatastoreRequest.partitionId body
    = (if truthy (Query.namespace q) then Query.namespace q else None)
  ∧ DatastoreRequest.keys body = None
  ∧ DatastoreRequest.mutations body = None
  ∧ DatastoreRequest.mode body = None
  ∧ DatastoreRequest.transaction body = None.
Proof.
  unfold DatastoreRequest.request_reqOpts, DatastoreRequest.runQuery_reqOpts.
  destruct (Query.namespace q) as [ns|]; simpl;
    [destruct (negb (String.eqb ns ""))|];
    destruct (DatastoreRequest.this_id this); simpl; repeat split.
Qed.

Lemma runQuery_first_body this (q : Query.t) :
  DatastoreRequest.request_reqOpts this DatastoreRequest.runQuery_protoOpts
    (DatastoreRequest.runQuery_reqOpts q)
  = DatastoreRequest.set_query (queryToQueryProto q)
      (DatastoreRequest.request_reqOpts this
         DatastoreRequest.runQuery_protoOpts
         (DatastoreRequest.runQuery_reqOpts q)).
Proof.
  unfold DatastoreRequest.request_reqOpts, DatastoreRequest.runQuery_reqOpts.
  destruct (Query.namespace q) as [ns|]; simpl;
    [destruct (negb (String.eqb ns ""))|];
    destruct (DatastoreRequest.this_id this); reflexivity.
Qed.

(** Every request that answers a reply is the first body with a new
    query. *)
Lemma onResponses_bodies this (q : Query.t) (orig : Z) (callback : Callback)
  (replies : list (option ApiError
                   * option DatastoreRequest.RunQueryResponse)) :
  ∀ st,
    (∃ queryProto,
       DatastoreRequest.reqOpts st
       = DatastoreRequest.set_query queryProto
           (DatastoreRequest.request_reqOpts this
              DatastoreRequest.runQuery_protoOpts
              (DatastoreRequest.runQuery_reqOpts q))) →
    ∀ d,
      DatastoreRequest.Requested d
        ∈ DatastoreRequest.onResponses this q orig callback st replies →
      DatastoreRequest.dispatch_protoOpts d
      = DatastoreRequest.runQuery_protoOpts
      ∧ DatastoreRequest.dispatch_handler d
        = DatastoreRequest.OnResponse q callback
      ∧ ∃ queryProto,
          DatastoreRequest.dispatch_reqOpts d
          = DatastoreRequest.set_query queryProto
              (DatastoreRequest.request_reqOpts this
                 DatastoreRequest.runQuery_protoOpts
                 (DatastoreRequest.runQuery_reqOpts q)).
Proof.
  induction replies as [|[err resp] replies IH]; intros st Hst d Hd;
    simpl in Hd.
  - by apply elem_of_nil in Hd.
  - pose proof (onResponse_cases this q orig callback st err resp) as Hcase.
    destruct (DatastoreRequest.onResponse this q orig callback st err resp)
      as [st' d'|args|e].
    + destruct Hcase as (queryProto & -> & Hst').
      destruct Hst as [queryProto0 Hst].
      assert (Hbody :
        DatastoreRequest.request_reqOpts this
          DatastoreRequest.runQuery_protoOpts
          (DatastoreRequest.set_query queryProto
             (DatastoreRequest.reqOpts st))
        = DatastoreRequest.set_query queryProto
            (DatastoreRequest.request_reqOpts this
               DatastoreRequest.runQuery_protoOpts
               (DatastoreRequest.runQuery_reqOpts q))).
      { rewrite Hst.
        exact (proj1 (runQuery_body_fields this q queryProto)). }
      apply elem_of_cons in Hd as [[= ->]|Hd].
      * split; [done|]. split; [done|]. by exists queryProto.
      * apply (IH st'); [|done]. exists queryProto.
        rewrite Hst'. exact Hbody.
    + apply elem_of_cons in Hd as [[=]|Hd]. by apply elem_of_nil in Hd.
    + apply elem_of_cons in Hd as [[=]|Hd]. by apply elem_of_nil in Hd.
Qed.

(** X15.  All requests of one [runQuery] call are alike but for the query
    they carry: each is a [runQuery] request answered by the same handler,
    with the project id of the object, with [this.id] as the transaction to
    read in, with the namespace of the query as partition when it is truthy,
    and with no keys, mutations, mode or commit transaction. *)
Theorem runQuery_requests_alike this (q : Query.t) (callback : Callback)
  (replies : list (option ApiError
                   * option DatastoreRequest.RunQueryResponse))
  (d : DatastoreRequest.Dispatch) :
  DatastoreRequest.Requested d
    ∈ DatastoreRequest.runQuery this q callback replies →
  DatastoreRequest.dispatch_protoOpts d
  = {| DatastoreRequest.service := "Datastore";
       DatastoreRequest.method := "runQuery" |}
  ∧ DatastoreRequest.dispatch_handler d
    = DatastoreRequest.OnResponse q callback
  ∧ is_Some (DatastoreRequest.query (DatastoreRequest.dispatch_reqOpts d))
  ∧ DatastoreRequest.projectId (DatastoreRequest.dispatch_reqOpts d)
    = DatastoreRequest.this_projectId this
  ∧ DatastoreRequest.readOptions (DatastoreRequest.dispatch_reqOpts d)
    = Some {| DatastoreRequest.readOptions_transaction :=
                DatastoreRequest.this_id this |}
  ∧ DatastoreRequest.partitionId (DatastoreRequest.dispatch_reqOpts d)
    = (if truthy (Query.namespace q) then Query.namespace q else None)
  ∧ DatastoreRequest.keys (DatastoreRequest.dispatch_reqOpts d) = None
  ∧ DatastoreRequest.mutations (DatastoreRequest.dispatch_reqOpts d) = None
  ∧ DatastoreRequest.mode (DatastoreRequest.dispatch_reqOpts d) = None
  ∧ DatastoreRequest.transaction (DatastoreRequest.dispatch_reqOpts d)
    = None.
Proof.
  unfold DatastoreRequest.runQuery. cbv zeta. intros Hd.
  assert (Halike :
    DatastoreRequest.dispatch_protoOpts d
    = DatastoreRequest.runQuery_protoOpts
    ∧ DatastoreRequest.dispatch_handler d
      = DatastoreRequest.OnResponse q callback
    ∧ ∃ queryProto,
        DatastoreRequest.dispatch_reqOpts d
        = DatastoreRequest.set_query queryProto
            (DatastoreRequest.request_reqOpts this
               DatastoreRequest.runQuery_protoOpts
               (DatastoreRequest.runQuery_reqOpts q))).
  { apply elem_of_cons in Hd as [[= ->]|Hd].
    - split; [done|]. split; [done|]. exists (queryToQueryProto q).
      apply runQuery_first_body.
    - eapply onResponses_bodies; [|exact Hd].
      exists (queryToQueryProto q). apply runQuery_first_body. }
  destruct Halike as (-> & -> & queryProto & ->).
  destruct (runQuery_body_fields this q queryProto) as (_ & Hfields).
  split; [done|]. split; [done|]. split; [by eexists|]. exact Hfields.
Qed.

(** The last element of a list that is not empty. *)
Lemma last_cons_default {A} (l : list A) :
  ∀ x d, List.last (x :: l) d = List.last l x.
Proof.
  induction l as [|y l IH]; intros x d; [done|].
  change (List.last (x :: y :: l) d) with (List.last (y :: l) d).
  by rewrite !IH.
Qed.

(** NOT_FINISHED batches met by a state whose request carried the limit of
    [current]: the request that answers the last of them asks for what is
    left of that limit. *)
Lemma onResponses_remaining_limit this (q : Query.t) (orig : Z)
  (callback : Callback) :
  (∀ q', limit_value (queryToQueryProto q') = Some (Query.limitVal q')) →
  ∀ (more : list DatastoreRequest.RunQueryResponse)
    (first : DatastoreRequest.RunQueryResponse) st (current : Query.t),
    DatastoreRequest.query (DatastoreRequest.reqOpts st)
    = Some (queryToQueryProto current) →
    Forall (λ r,
              DatastoreRequest.moreResults (DatastoreRequest.batch r)
              = "NOT_FINISHED"
              ∧ is_Some (DatastoreRequest.entityResults
                           (DatastoreRequest.batch r))) (first :: more) →
    (Z.of_nat (sum_list (results_count <$> first :: more))
     ≤ Query.limitVal current)%Z →
    ∃ ds d,
      DatastoreRequest.onResponses (ApiError := ApiError) this q orig
        callback st ((λ r, (None, Some r)) <$> first :: more)
      = DatastoreRequest.Requested <$> (ds ++ [d])
      ∧ length ds = length more
      ∧ DatastoreRequest.query (DatastoreRequest.dispatch_reqOpts d)
        = Some (queryToQueryProto
                  (Query.limit
                     (Query.limitVal current
                      - Z.of_nat
                          (sum_list (results_count <$> first :: more)))%Z
                     (DatastoreRequest.next_query q
                        (DatastoreRequest.batch (List.last more first))))).
Proof.
  intros Hcodec.
  assert (Hstep : ∀ first st current,
    DatastoreRequest.query (DatastoreRequest.reqOpts st)
    = Some (queryToQueryProto current) →
    DatastoreRequest.moreResults (DatastoreRequest.batch first)
    = "NOT_FINISHED" →
    is_Some (DatastoreRequest.entityResults (DatastoreRequest.batch first)) →
    (Z.of_nat (results_count first) ≤ Query.limitVal current)%Z →
    ∃ d st',
      DatastoreRequest.onResponse (ApiError := ApiError) this q orig callback
        st None (Some first)
      = DatastoreRequest.Reissue st' d
      ∧ DatastoreRequest.reqOpts st' = DatastoreRequest.dispatch_reqOpts d
      ∧ DatastoreRequest.query (DatastoreRequest.dispatch_reqOpts d)
        = Some (queryToQueryProto
                  (Query.limit
                     (Query.limitVal current
                      - Z.of_nat (results_count first))%Z
                     (DatastoreRequest.next_query q
                        (DatastoreRequest.batch first))))).
  { intros first st current Hquery Hmore [results Hresults] Hle.
    destruct (onResponse_notFinished (ApiError := ApiError) this q orig
                callback st first _ (Query.limitVal current) results Hmore
                Hquery (Hcodec current) Hresults)
      as (d & Hstep & _ & Hsent).
    unfold results_count in Hle |- *. rewrite Hresults in Hle |- *.
    eexists d, _. split; [exact Hstep|]. split; [reflexivity|].
    rewrite Hsent. unfold continuation.
    replace (Query.limitVal current >? -1)%Z with true; [done|].
    symmetry. apply Z.gtb_lt. lia. }
  induction more as [|r more IH];
    intros first st current Hquery Hnf Hsum;
    inversion Hnf as [|? ? [Hmore Hresults] Hnf']; subst;
    csimpl in Hsum.
  - destruct (Hstep first st current Hquery Hmore Hresults)
      as (d & st' & Hfirst & _ & Hsent); [lia|].
    exists [], d. csimpl. rewrite Hfirst. csimpl.
    split; [done|]. split; [done|]. rewrite Hsent.
    do 3 f_equal. lia.
  - destruct (Hstep first st current Hquery Hmore Hresults)
      as (d & st' & Hfirst & Hst' & Hsent); [lia|].
    destruct (IH r st'
                (Query.limit
                   (Query.limitVal current
                    - Z.of_nat (results_count first))%Z
                   (DatastoreRequest.next_query q
                      (DatastoreRequest.batch first))))
      as (ds & d' & Hrun & Hlen & Hlast).
    { by rewrite Hst'. }
    { exact Hnf'. }
    { csimpl. lia. }
    exists (d :: ds), d'. rewrite (last_cons_default more r first).
    csimpl. rewrite Hfirst.
    csimpl in Hrun. rewrite Hrun.
    split; [done|]. split; [by rewrite Hlen|].
    rewrite Hlast. csimpl.
    do 3 f_equal. lia.
Qed.

(** X16.  While the server keeps answering NOT_FINISHED, every continuation
    asks for what is left of the limit: when the batches received so far
    hold no more results than the limit of the query, the request that is
    outstanding after them carries that limit minus the number of results
    received, the end cursor of the last batch as start, and the offset of
    the query minus what the last batch alone skipped.  The wire form of a
    query is taken to carry the limit of the query. *)
Theorem runQuery_remaining_limit this (q : Query.t) (callback : Callback)
  (first : DatastoreRequest.RunQueryResponse)
  (more : list DatastoreRequest.RunQueryResponse) :
  (∀ q', limit_value (queryToQueryProto q') = Some (Query.limitVal q')) →
  Forall (λ r,
            DatastoreRequest.moreResults (DatastoreRequest.batch r)
            = "NOT_FINISHED"
            ∧ is_Some (DatastoreRequest.entityResults
                         (DatastoreRequest.batch r))) (first :: more) →
  (Z.of_nat (sum_list (results_count <$> first :: more))
   ≤ Query.limitVal q)%Z →
  ∃ ds d sent,
    DatastoreRequest.runQuery (ApiError := ApiError) this q callback
      ((λ r, (None, Some r)) <$> first :: more)
    = DatastoreRequest.Requested <$> (ds ++ [d])
    ∧ length ds = S (length more)
    ∧ DatastoreRequest.query (DatastoreRequest.dispatch_reqOpts d)
      = Some (queryToQueryProto sent)
    ∧ Query.limitVal sent
      = (Query.limitVal q
         - Z.of_nat (sum_list (results_count <$> first :: more)))%Z
    ∧ Query.startVal sent
      = Some (toString_base64
                (DatastoreRequest.endCursor
                   (DatastoreRequest.batch (List.last more first))))
    ∧ Query.offsetVal sent
      = (requested_offset q
         - DatastoreRequest.skippedResults
             (DatastoreRequest.batch (List.last more first)))%Z.
Proof.
  intros Hcodec Hnf Hsum. unfold DatastoreRequest.runQuery. cbv zeta.
  destruct (onResponses_remaining_limit this q (Query.limitVal q) callback
              Hcodec more first
              {| DatastoreRequest.entities := [];
                 DatastoreRequest.reqOpts :=
                   DatastoreRequest.dispatch_reqOpts
                     (DatastoreRequest.request_ this
                        DatastoreRequest.runQuery_protoOpts
                        (DatastoreRequest.runQuery_reqOpts q)
                        (DatastoreRequest.OnResponse q callback)) |}
              q)
    as (ds & d & -> & Hlen & Hlast); [|done|done|].
  { unfold DatastoreRequest.request_. simpl.
    by rewrite request_reqOpts_query, runQuery_reqOpts_query. }
  eexists (_ :: ds), d, _. split; [reflexivity|].
  split; [simpl; by rewrite Hlen|]. split; [exact Hlast|].
  repeat split.
Qed.

End Queries.

(** ** Further properties of the firewall wrapper *)

Section FirewallRequests.
Context {Callback ApiError Json : Type} (json_string : string → Json).

(** X17.  [setMetadata] sends one PATCH request to the firewall's own URI.
    Its JSON body is the caller's metadata, or an empty object when none is
    given, in which [name] is the firewall's name and [network] is the
    firewall's network, whatever the caller wrote under these two names;
    every other field is the caller's.  For a firewall fresh from the
    constructor the network is ['global/networks/default']. *)
Theorem setMetadata_request (this : Firewall.t)
  (metadata : option (gmap string Json)) (callback : option Callback) :
  ∃ json,
    (Firewall.setMetadata (ApiError := ApiError) json_string this metadata
       callback).1
    = Firewall.Request "PATCH" "" json
    ∧ json !! "name" = Some (json_string (Firewall.name this))
    ∧ json !! "network" = Some (Firewall.metadata_network this)
    ∧ (∀ field, field ≠ "name" → field ≠ "network" →
                json !! field = or_else metadata ∅ !! field)
    ∧ (∀ firewall_name,
         this = Firewall.new json_string firewall_name →
         json !! "name" = Some (json_string firewall_name)
         ∧ json !! "network"
           = Some (json_string "global/networks/default")).
Proof.
  eexists. split; [reflexivity|].
  split; [by rewrite lookup_insert_ne, lookup_insert_eq|].
  split; [by rewrite lookup_insert_eq|]. split.
  - intros field Hname Hnetwork. by rewrite !lookup_insert_ne.
  - intros firewall_name ->. simpl.
    by rewrite lookup_insert_ne, !lookup_insert_eq.
Qed.

End FirewallRequests.

(** ** The further statements on concrete calls *)

Section MoreConcrete.
#[local] Existing Instance Sample.entity.
#[local] Existing Instance Sample.buffer.

(** [delete] on an object whose id is the empty string. *)
Lemma dispatched_commit_mode_witness :
  ∃ d,
    DatastoreRequest.effects_dispatched
      (DatastoreRequest.delete Sample.blank (One Sample.completeKey)
         (Some "cb")) = [d]
    ∧ DatastoreRequest.mode (DatastoreRequest.dispatch_reqOpts d)
      = Some "TRANSACTIONAL"
    ∧ DatastoreRequest.transaction (DatastoreRequest.dispatch_reqOpts d)
      = Some "".
Proof.
  destruct (dispatched_commit_mode Sample.store Sample.blank
              (One Sample.completeKey) (Many [Sample.company 0 None])
              (Some "cb") eq_refl) as ((d & Hd & Hmode & Htx) & _).
  exists d. split; [exact Hd|]. split; [exact Hmode|exact Htx].
Defined.

(** [allocateIds] for minus two ids. *)
Lemma allocateIds_no_ids_witness :
  ∃ d,
    DatastoreRequest.allocateIds Sample.client Sample.incompleteKey (-2) "cb"
    = inr d
    ∧ DatastoreRequest.keys (DatastoreRequest.dispatch_reqOpts d) = Some [].
Proof.
  apply (allocateIds_no_ids Sample.client Sample.incompleteKey (-2) "cb");
    [reflexivity|lia].
Defined.

(** [get] of no key and of two keys inside the transaction ['1234']. *)
Lemma get_request_witness :
  DatastoreRequest.get Sample.transaction (Many [])
  = inl (Error "At least one Key object is required.")
  ∧ ∃ reqOpts,
      DatastoreRequest.get Sample.transaction
        (Many [Sample.completeKey; Sample.incompleteKey])
      = inr (DatastoreRequest.lookup_protoOpts, reqOpts)
      ∧ DatastoreRequest.keys reqOpts
        = Some [Sample.completeKey; Sample.incompleteKey]
      ∧ DatastoreRequest.readOptions reqOpts
        = Some {| DatastoreRequest.readOptions_transaction := Some "1234" |}.
Proof.
  split.
  - apply (get_request Sample.transaction (Many [])). reflexivity.
  - destruct (get_request Sample.transaction
                (Many [Sample.completeKey; Sample.incompleteKey]))
      as (_ & Hsome).
    destruct Hsome as (reqOpts & Hget & Hkeys & _ & Hread & _);
      [discriminate|].
    exists reqOpts. split; [exact Hget|]. split; [exact Hkeys|exact Hread].
Defined.

(** An entity saved on the complete [Key] object 1, and a reply that
    carries a key all the same. *)
Lemma onCommit_leaves_complete_keys_witness :
  ∃ saved ix,
    DatastoreRequest.save Sample.store Sample.client
      (One (Sample.company 1 None)) (Some "cb") = inr saved
    ∧ (DatastoreRequest.onCommit (ApiError := string)
         [Sample.company 1 None] ix (Some "cb") Sample.store None
         (Some (Sample.committed [7%Z]))).1 1
      = Sample.completeKey.
Proof.
  eexists.
  destruct (onCommit_leaves_complete_keys (ApiError := string) Sample.store
              Sample.client (One (Sample.company 1 None)) (Some "cb") _
              eq_refl) as (ix & _ & Honly).
  exists ix. split; [reflexivity|].
  destruct (Honly Sample.store None (Some (Sample.committed [7%Z])) 1)
    as (Hcomplete & _).
  apply Hcomplete. intros e _ _. reflexivity.
Defined.

(** Two entities saved on the incomplete [Key] object 0; the server answers
    with the ids 11 and 22. *)
Lemma onCommit_last_write_wins_witness :
  ∃ saved ix,
    DatastoreRequest.save Sample.store Sample.client
      (Many [Sample.company 0 None; Sample.company 0 None]) (Some "cb")
    = inr saved
    ∧ Key.id
        ((DatastoreRequest.onCommit (ApiError := string)
            [Sample.company 0 None; Sample.company 0 None] ix (Some "cb")
            Sample.store None (Some (Sample.committed [11; 22]%Z))).1 0)
      = Some 22%Z.
Proof.
  eexists.
  destruct (onCommit_last_write_wins (ApiError := string) Sample.store
              Sample.client
              (Many [Sample.company 0 None; Sample.company 0 None])
              (Some "cb") _ eq_refl) as (ix & _ & Hwrite).
  exists ix. split; [reflexivity|].
  apply (Hwrite Sample.store (Sample.committed [11; 22]%Z) 1
           (Sample.company 0 None) (Sample.generated 22)
           (Sample.generatedKey 22));
    try reflexivity.
  intros j e' result' Hj He'.
  destruct j as [|[|j]]; [lia|lia|discriminate He'].
Defined.

(** A [delete], a [save] and another [delete] on the transaction
    ['1234'], and on the client. *)
Lemma calls_append_only_witness :
  let cs :=
    [CallDelete (One Sample.completeKey) (Some "cb");
     CallSave (One (Sample.company 0 None)) (Some "cb");
     CallDelete (One Sample.completeKey) None] in
  DatastoreRequest.effects_dispatched
    (calls_in_order Sample.store Sample.transaction cs).1 = []
  ∧ DatastoreRequest.effects_this
      (calls_in_order Sample.store Sample.client cs).1 = Sample.client.
Proof.
  intros cs.
  destruct (calls_append_only Sample.store Sample.transaction cs)
    as (_ & _ & _ & _ & Hquiet & _).
  destruct (calls_append_only Sample.store Sample.client cs)
    as (_ & _ & _ & _ & _ & Hdirect).
  split; [exact (Hquiet eq_refl)|]. exact (proj1 (Hdirect eq_refl)).
Defined.

(** The same three calls on the transaction ['1234']: three bodies, one
    callback. *)
Lemma transaction_queue_counts_witness :
  let after :=
    calls_in_order Sample.store Sample.transaction
      [CallDelete (One Sample.completeKey) (Some "cb");
       CallSave (One (Sample.company 0 None)) (Some "cb");
       CallDelete (One Sample.completeKey) None] in
  length (DatastoreRequest.requests_
            (DatastoreRequest.effects_this after.1)) = 3
  ∧ length (DatastoreRequest.requestCallbacks_
              (DatastoreRequest.effects_this after.1)) = 1.
Proof.
  intros after. subst after.
  destruct (transaction_queue_counts Sample.store Sample.transaction
              [CallDelete (One Sample.completeKey) (Some "cb");
               CallSave (One (Sample.company 0 None)) (Some "cb");
               CallDelete (One Sample.completeKey) None])
    as (_ & _ & Hrequests & Hcallbacks).
  { reflexivity. }
  { repeat constructor. by exists "upsert". }
  split; [exact Hrequests|exact Hcallbacks].
Defined.

(** One NOT_FINISHED batch, then a failure of the transport. *)
Lemma runQuery_error_discards_witness :
  DatastoreRequest.calls
    (DatastoreRequest.runQuery Sample.client (Sample.lions 5 (-1)) "cb"
       [(None, Some (Sample.page (Some ["a"]) "NOT_FINISHED" "c1" 0));
        (Some "unavailable", None)])
  = [{| DatastoreRequest.run_callback := "cb";
        DatastoreRequest.run_err := Some "unavailable";
        DatastoreRequest.run_entities := None;
        DatastoreRequest.run_nextQuery := None;
        DatastoreRequest.run_apiResponse := None |}].
Proof.
  destruct (runQuery_error_discards Sample.client (Sample.lions 5 (-1)) "cb"
              [Sample.page (Some ["a"]) "NOT_FINISHED" "c1" 0]
              "unavailable" None) as (Hcalls & _).
  { intros q'. by eexists. }
  { repeat (constructor; [split; [reflexivity|by eexists]|]). constructor. }
  exact Hcalls.
Defined.

(** One NOT_FINISHED batch, then a batch that reports NO_MORE_RESULTS. *)
Lemma runQuery_no_more_results_witness :
  DatastoreRequest.calls
    (DatastoreRequest.runQuery (ApiError := string) Sample.client
       (Sample.lions 5 (-1)) "cb"
       [(None, Some (Sample.page (Some ["a"]) "NOT_FINISHED" "c1" 0));
        (None, Some (Sample.page (Some ["b"]) "NO_MORE_RESULTS" "c2" 0))])
  = [{| DatastoreRequest.run_callback := "cb";
        DatastoreRequest.run_err := None;
        DatastoreRequest.run_entities := Some ["a"; "b"];
        DatastoreRequest.run_nextQuery := None;
        DatastoreRequest.run_apiResponse :=
          Some (Sample.page (Some ["b"]) "NO_MORE_RESULTS" "c2" 0) |}].
Proof.
  destruct (runQuery_no_more_results (ApiError := string) Sample.client
              (Sample.lions 5 (-1)) "cb"
              [Sample.page (Some ["a"]) "NOT_FINISHED" "c1" 0]
              (Sample.page (Some ["b"]) "NO_MORE_RESULTS" "c2" 0))
    as (Hcalls & _).
  { intros q'. by eexists. }
  { repeat (constructor; [split; [reflexivity|by eexists]|]). constructor. }
  { discriminate. }
  { discriminate. }
  exact Hcalls.
Defined.

(** The first request of a [runQuery] inside the transaction ['1234']. *)
Lemma runQuery_requests_alike_witness :
  let d :=
    DatastoreRequest.request_ Sample.transaction
      DatastoreRequest.runQuery_protoOpts
      (DatastoreRequest.runQuery_reqOpts (Sample.lions 5 (-1)))
      (DatastoreRequest.OnResponse (Sample.lions 5 (-1)) "cb") in
  DatastoreRequest.readOptions (DatastoreRequest.dispatch_reqOpts d)
  = Some {| DatastoreRequest.readOptions_transaction := Some "1234" |}
  ∧ DatastoreRequest.partitionId (DatastoreRequest.dispatch_reqOpts d) = None.
Proof.
  intros d.
  destruct (runQuery_requests_alike (ApiError := string) Sample.transaction
              (Sample.lions 5 (-1)) "cb" [] d)
    as (_ & _ & _ & _ & Hread & Hpartition & _).
  { apply list_elem_of_here. }
  split; [exact Hread|exact Hpartition].
Defined.

(** A query with limit 5 answered by NOT_FINISHED batches of two results
    and of one. *)
Lemma runQuery_remaining_limit_witness :
  ∃ ds d sent,
    DatastoreRequest.runQuery (ApiError := string) Sample.client
      (Sample.lions 5 (-1)) "cb"
      [(None, Some (Sample.page (Some ["a"; "b"]) "NOT_FINISHED" "c1" 0));
       (None, Some (Sample.page (Some ["c"]) "NOT_FINISHED" "c2" 0))]
    = DatastoreRequest.Requested <$> (ds ++ [d])
    ∧ DatastoreRequest.query (DatastoreRequest.dispatch_reqOpts d)
      = Some sent
    ∧ Query.limitVal sent = 2%Z
    ∧ Query.startVal sent = Some "c2".
Proof.
  destruct (runQuery_remaining_limit (ApiError := string) Sample.client
              (Sample.lions 5 (-1)) "cb"
              (Sample.page (Some ["a"; "b"]) "NOT_FINISHED" "c1" 0)
              [Sample.page (Some ["c"]) "NOT_FINISHED" "c2" 0])
    as (ds & d & sent & Hrun & _ & Hsent & Hlimit & Hstart & _).
  { reflexivity. }
  { repeat (constructor; [split; [reflexivity|by eexists]|]). constructor. }
  { simpl. lia. }
  exists ds, d, sent. split; [exact Hrun|]. split; [exact Hsent|].
  split; [exact Hlimit|exact Hstart].
Defined.

(** [setMetadata] with a description and a name of the caller's, on a
    firewall named tcp-3000. *)
Lemma setMetadata_request_witness :
  ∃ json,
    (Firewall.setMetadata (Callback := string) (ApiError := string)
       (λ text, text) (Firewall.new (λ text, text) "tcp-3000")
       (Some {["description" := "New description"; "name" := "other"]})
       None).1
    = Firewall.Request "PATCH" "" json
    ∧ json !! "name" = Some "tcp-3000"
    ∧ json !! "network" = Some "global/networks/default"
    ∧ json !! "description" = Some "New description".
Proof.
  destruct (setMetadata_request (Callback := string) (ApiError := string)
              (λ text, text) (Firewall.new (λ text, text) "tcp-3000")
              (Some {["description" := "New description";
                      "name" := "other"]}) None)
    as (json & Hrequest & _ & _ & Hother & Hfresh).
  destruct (Hfresh "tcp-3000" eq_refl) as (Hname & Hnetwork).
  exists json. split; [exact Hrequest|]. split; [exact Hname|].
  split; [exact Hnetwork|].
  rewrite Hother by discriminate. reflexivity.
Defined.

End MoreConcrete.
